(** * ideaboard-terminal: the serial flasher and terminal page (script.js)

    A shallow embedding of [script.js] and the properties its specification
    states about it.

    - JavaScript strings are sequences of UTF-16 code units: [list Z].
    - The regular expressions of [cleanSerialOutput] are values of a small
      regex syntax, run by a backtracking matcher with the priorities of the
      ECMAScript matcher (greedy and lazy quantifiers over a character
      class), and [String.prototype.replace] with a global regex is a
      left-to-right scan.
    - [TextDecoder.decode] is the UTF-8 decoder of the Encoding standard,
      run without the [stream] option, as the page calls it.
    - The click handlers are written in a state-and-exception monad over the
      module-level variables, the DOM nodes the page touches, and the trace
      of calls made on the external collaborators (serial port, transport,
      flasher client, network). *)

From Stdlib Require Import List ZArith Lia Bool Arith String Ascii.
From Stdlib Require Import Strings.Byte.
From Stdlib Require Import Numbers.DecimalString Numbers.HexadecimalString.
Import ListNotations.

Local Open Scope Z_scope.

(* ================================================================= *)
(** ** JavaScript strings *)

(** A string is the list of its UTF-16 code units. *)
Definition jsstring := list Z.

(** A string literal of the source, all of whose characters are ASCII. *)
Definition lit (s : string) : jsstring :=
  map (fun a => Z.of_N (N_of_ascii a)) (list_ascii_of_string s).
Arguments lit s%_string.

Definition ESC : Z := 0x1B.
Definition BEL : Z := 0x07.
Definition LF  : Z := 0x0A.
Definition CR  : Z := 0x0D.
Definition BACKSLASH : Z := 0x5C.

(** A string is truthy when it is not empty. *)
Definition truthy (s : jsstring) : bool :=
  match s with [] => false | _ :: _ => true end.

(** [s.indexOf(c)] for a one-character needle; [None] stands for -1. *)
Fixpoint indexOf (c : Z) (s : jsstring) : option nat :=
  match s with
  | [] => None
  | x :: t => if x =? c then Some O
              else match indexOf c t with
                   | Some i => Some (S i)
                   | None => None
                   end
  end.

(** [s.substring(a, b)] for [a <= b]; indices past the end are clamped. *)
Definition substring (a b : nat) (s : jsstring) : jsstring :=
  firstn (b - a) (skipn a s).

(** [s.substring(a)]. *)
Definition substring_from (a : nat) (s : jsstring) : jsstring := skipn a s.

Fixpoint startsWith (p s : jsstring) : bool :=
  match p, s with
  | [], _ => true
  | _ :: _, [] => false
  | a :: p', b :: s' => (a =? b) && startsWith p' s'
  end.

(** [s.includes(p)]. *)
Fixpoint includes (p s : jsstring) : bool :=
  startsWith p s ||
  match s with
  | [] => false
  | _ :: t => includes p t
  end.

(* ================================================================= *)
(** ** Regular expressions *)

Module Regex.

(** The fragment of the regex syntax the page uses: a character, a
    character class, concatenation, and a greedy ([*]) or lazy ([*?])
    repetition of a character class. *)
Inductive regex : Type :=
| Chr (c : Z)
| Cls (p : Z -> bool)
| Seq (r1 r2 : regex)
| StarGreedy (p : Z -> bool)
| StarLazy (p : Z -> bool).

(** The matcher threads a continuation, as the ECMAScript matcher does:
    [k] is run on what is left of the input and returns the input left after
    the whole match, or [None] to make the matcher backtrack. *)
Definition cont := jsstring -> option jsstring.

(** [p*]: one more character first, the continuation when that fails. *)
Fixpoint star_greedy (p : Z -> bool) (s : jsstring) (k : cont) : option jsstring :=
  match s with
  | c :: t =>
      if p c then
        match star_greedy p t k with
        | Some r => Some r
        | None => k s
        end
      else k s
  | [] => k []
  end.

(** [p*?]: the continuation first, one more character when that fails. *)
Fixpoint star_lazy (p : Z -> bool) (s : jsstring) (k : cont) : option jsstring :=
  match k s with
  | Some r => Some r
  | None =>
      match s with
      | c :: t => if p c then star_lazy p t k else None
      | [] => None
      end
  end.

Fixpoint run (r : regex) (s : jsstring) (k : cont) : option jsstring :=
  match r with
  | Chr c =>
      match s with
      | x :: t => if x =? c then k t else None
      | [] => None
      end
  | Cls p =>
      match s with
      | x :: t => if p x then k t else None
      | [] => None
      end
  | Seq r1 r2 => run r1 s (fun s' => run r2 s' k)
  | StarGreedy p => star_greedy p s k
  | StarLazy p => star_lazy p s k
  end.

(** A match of [r] at the start of [s]: the number of characters matched. *)
Definition match_at (r : regex) (s : jsstring) : option nat :=
  match run r s (fun rest => Some rest) with
  | Some rest => Some (List.length s - List.length rest)%nat
  | None => None
  end.

(** [s.replace(/r/g, rep)]: the matches are looked for from left to right,
    each search starting where the last match ended.  [skip] counts the
    characters of the current match still to be dropped.  After an empty
    match the search moves on by one character, which is kept. *)
Fixpoint replace_from (r : regex) (rep : jsstring) (skip : nat) (s : jsstring)
  : jsstring :=
  match s with
  | [] =>
      match skip with
      | O => match match_at r [] with Some _ => rep | None => [] end
      | S _ => []
      end
  | c :: t =>
      match skip with
      | S n => replace_from r rep n t
      | O =>
          match match_at r s with
          | Some O => rep ++ c :: replace_from r rep O t
          | Some (S n) => rep ++ replace_from r rep n t
          | None => c :: replace_from r rep O t
          end
      end
  end.

Definition replace_all (r : regex) (rep : jsstring) (s : jsstring) : jsstring :=
  replace_from r rep O s.

(** Character classes. *)
Definition range (lo hi : Z) (c : Z) : bool := (lo <=? c) && (c <=? hi).

(** [.] without the [s] flag: every character but the line terminators. *)
Definition dot (c : Z) : bool :=
  negb ((c =? 0x0A) || (c =? 0x0D) || (c =? 0x2028) || (c =? 0x2029)).

(** The characters of a literal, in sequence, then [r]. *)
Fixpoint chars (l : list Z) (r : regex) : regex :=
  match l with
  | [] => r
  | c :: l' => Seq (Chr c) (chars l' r)
  end.

End Regex.
Import Regex.

(* ================================================================= *)
(** ** cleanSerialOutput *)

(** [[0-9;]] *)
Definition csi_param (c : Z) : bool := range 0x30 0x39 c || (c =? 0x3B).
(** [[a-zA-Z]] *)
Definition letter (c : Z) : bool := range 0x61 0x7A c || range 0x41 0x5A c.
(** [[\x07\x5C]] *)
Definition bel_or_backslash (c : Z) : bool := (c =? 0x07) || (c =? 0x5C).
(** [[\x00-\x09\x0B-\x1F\x7F-\x9F]] *)
Definition control (c : Z) : bool :=
  range 0x00 0x09 c || range 0x0B 0x1F c || range 0x7F 0x9F c.

(** [/\x1B\[[0-9;]*[a-zA-Z]/] *)
Definition re_csi : regex :=
  chars [0x1B; 0x5B] (Seq (StarGreedy csi_param) (Cls letter)).
(** [/\x1B\]0;.*?\x07/] *)
Definition re_osc_bel : regex :=
  chars [0x1B; 0x5D; 0x30; 0x3B] (Seq (StarLazy dot) (Chr 0x07)).
(** [/\x1B\]0;.*?\x5C/] *)
Definition re_osc_backslash : regex :=
  chars [0x1B; 0x5D; 0x30; 0x3B] (Seq (StarLazy dot) (Chr 0x5C)).
(** [/\x1B\]0;.*?[\x07\x5C]/] *)
Definition re_osc_either : regex :=
  chars [0x1B; 0x5D; 0x30; 0x3B] (Seq (StarLazy dot) (Cls bel_or_backslash)).
(** [/[\x00-\x09\x0B-\x1F\x7F-\x9F]/] *)
Definition re_control : regex := Cls control.
(** [/\r\n/] *)
Definition re_crlf : regex := chars [0x0D] (Chr 0x0A).
(** [/\r/] *)
Definition re_cr : regex := Chr 0x0D.

Definition strip_csi : jsstring -> jsstring := replace_all re_csi [].
Definition strip_osc_bel : jsstring -> jsstring := replace_all re_osc_bel [].
Definition strip_osc_backslash : jsstring -> jsstring :=
  replace_all re_osc_backslash [].
Definition strip_osc_either : jsstring -> jsstring := replace_all re_osc_either [].
Definition strip_control : jsstring -> jsstring := replace_all re_control [].
Definition crlf_to_lf : jsstring -> jsstring := replace_all re_crlf [0x0A].
Definition drop_cr : jsstring -> jsstring := replace_all re_cr [].

Definition cleanSerialOutput (text : jsstring) : jsstring :=
  drop_cr (crlf_to_lf (strip_control (strip_osc_either
    (strip_osc_backslash (strip_osc_bel (strip_csi text)))))).

(* ================================================================= *)
(** ** arrayBufferToBinaryString *)

Definition byte_val (b : byte) : Z := Z.of_N (Byte.to_N b).

(** [String.fromCharCode(x)]: the code unit [ToUint16(x)]; [undefined]
    (an index outside the array) converts to 0. *)
Definition fromCharCode (x : option Z) : Z :=
  match x with
  | Some v => v mod 65536
  | None => 0
  end.

(** The loop [for (let i = 0; i < bytes.length; i++)], with [n] the number
    of iterations left, [bytes.length - i]. *)
Fixpoint binary_string_loop (bytes : list byte) (n : nat) (i : nat)
  (binaryString : jsstring) : jsstring :=
  match n with
  | O => binaryString
  | S n' =>
      binary_string_loop bytes n' (S i)
        (binaryString ++ [fromCharCode (option_map byte_val (nth_error bytes i))])
  end.

Definition arrayBufferToBinaryString (arrayBuffer : list byte) : jsstring :=
  binary_string_loop arrayBuffer (List.length arrayBuffer) O [].

(* ================================================================= *)
(** ** TextDecoder *)

(** [new TextDecoder()] is a UTF-8 decoder that replaces malformed input by
    U+FFFD and drops a leading byte order mark.  [decoder.decode(value)],
    called without the [stream] option, decodes each chunk on its own: the
    decoder starts afresh and the end of the chunk is the end of its input. *)
Module Utf8.

Record state : Type := {
  code_point : Z;
  bytes_seen : Z;
  bytes_needed : Z;
  lower_boundary : Z;
  upper_boundary : Z
}.

Definition init : state :=
  {| code_point := 0; bytes_seen := 0; bytes_needed := 0;
     lower_boundary := 0x80; upper_boundary := 0xBF |}.

Definition REPLACEMENT : Z := 0xFFFD.

(** A byte read when no continuation byte is expected. *)
Definition lead (b : Z) : list Z * state :=
  if range 0x00 0x7F b then ([b], init)
  else if range 0xC2 0xDF b then
    ([], {| code_point := Z.land b 0x1F; bytes_seen := 0; bytes_needed := 1;
            lower_boundary := 0x80; upper_boundary := 0xBF |})
  else if range 0xE0 0xEF b then
    ([], {| code_point := Z.land b 0xF; bytes_seen := 0; bytes_needed := 2;
            lower_boundary := if b =? 0xE0 then 0xA0 else 0x80;
            upper_boundary := if b =? 0xED then 0x9F else 0xBF |})
  else if range 0xF0 0xF4 b then
    ([], {| code_point := Z.land b 0x7; bytes_seen := 0; bytes_needed := 3;
            lower_boundary := if b =? 0xF0 then 0x90 else 0x80;
            upper_boundary := if b =? 0xF4 then 0x8F else 0xBF |})
  else ([REPLACEMENT], init).

(** One byte.  A byte outside the expected range ends the sequence with an
    error and is then read again as a first byte. *)
Definition step (st : state) (b : Z) : list Z * state :=
  if bytes_needed st =? 0 then lead b
  else if negb (range (lower_boundary st) (upper_boundary st) b) then
    let (out, st') := lead b in (REPLACEMENT :: out, st')
  else
    let cp := Z.lor (Z.shiftl (code_point st) 6) (Z.land b 0x3F) in
    if bytes_seen st + 1 =? bytes_needed st then ([cp], init)
    else ([], {| code_point := cp; bytes_seen := bytes_seen st + 1;
                 bytes_needed := bytes_needed st;
                 lower_boundary := 0x80; upper_boundary := 0xBF |}).

(** The code points of a chunk; at the end of the chunk an unfinished
    sequence is an error. *)
Fixpoint code_points (st : state) (bytes : list byte) : list Z :=
  match bytes with
  | [] => if bytes_needed st =? 0 then [] else [REPLACEMENT]
  | b :: t => let (out, st') := step st (byte_val b) in out ++ code_points st' t
  end.

Definition drop_bom (cps : list Z) : list Z :=
  match cps with
  | c :: t => if c =? 0xFEFF then t else cps
  | [] => []
  end.

(** The code units of a code point. *)
Definition utf16 (cp : Z) : list Z :=
  if cp <? 0x10000 then [cp]
  else [0xD800 + Z.shiftr (cp - 0x10000) 10;
        0xDC00 + Z.land (cp - 0x10000) 0x3FF].

Definition decode (value : list byte) : jsstring :=
  flat_map utf16 (drop_bom (code_points init value)).

End Utf8.

(* ================================================================= *)
(** ** The state of the page *)

Definition FLASH_BAUD_RATE : Z := 921600.
Definition TERM_BAUD_RATE : Z := 115200.
Definition FLASH_OFFSET : Z := 0x0.

(** An exception; the page reads only its [message]. *)
Record exn : Type := Error { message : jsstring }.

(** The way an awaited call on an external collaborator settles. *)
Inductive result (A : Type) : Type :=
| Ok (a : A)
| Err (e : exn).
Arguments Ok {A} a.
Arguments Err {A} e.

(** A serial port object, as a handle. *)
Definition handle := nat.

(** The flasher client: [new ESPLoader(loaderOptions)]. *)
Record loader : Type := {
  ld_transport : handle;
  ld_baudrate : Z
}.

(** The argument of [esploader.writeFlash].  The two callbacks of the object
    ([reportProgress], [calculateMD5Hash]) are closures and are left out. *)
Record flash_options : Type := {
  fileArray : list (jsstring * Z);
  flashSize : jsstring;
  eraseAll : bool;
  compress : bool
}.

(** The calls the page makes on its collaborators, in the order made. *)
Inductive event : Type :=
| RequestPort
| Confirm
| NewESPLoader (baudrate : Z)
| LoaderMain (mode : jsstring)
| EraseFlash
| Fetch (url : jsstring)
| ArrayBuffer
| WriteFlash (o : flash_options)
| TransportDisconnect
| Sleep (ms : Z)
| PortOpen (baudRate : Z)
| PortClose
| GetReader
| ReaderRead
| ReaderCancel
| ReaderReleaseLock.

(** A child of the log pane: a line of text, or the red span of an error. *)
Inductive entry : Type :=
| Line (text : jsstring)
| ErrorSpan (text : jsstring).

Record session : Type := {
  (* the module-level variables *)
  device : option handle;
  transport : option handle;
  esploader : option loader;
  port : option handle;
  reader : bool;
  isMonitoring : bool;
  buffer : jsstring;
  progressLine : option nat;
  (* the document: the children of the log pane, each with the identity of
     its node, and the controls *)
  log : list (nat * entry);
  next_node : nat;
  butConnect_text : jsstring;
  butProgram_disabled : bool;
  butTerminal_disabled : bool;
  butTerminal_text : jsstring;
  butTerminal_color : jsstring;
  firmwareSelect_value : jsstring;
  (* the calls made so far *)
  trace : list event
}.

(** Assignments to one variable or one property. *)
Definition set_device (v : option handle) (st : session) : session :=
  {| device := v; transport := transport st; esploader := esploader st;
     port := port st; reader := reader st; isMonitoring := isMonitoring st;
     buffer := buffer st; progressLine := progressLine st; log := log st;
     next_node := next_node st; butConnect_text := butConnect_text st;
     butProgram_disabled := butProgram_disabled st;
     butTerminal_disabled := butTerminal_disabled st;
     butTerminal_text := butTerminal_text st;
     butTerminal_color := butTerminal_color st;
     firmwareSelect_value := firmwareSelect_value st; trace := trace st |}.
Definition set_transport (v : option handle) (st : session) : session :=
  {| device := device st; transport := v; esploader := esploader st;
     port := port st; reader := reader st; isMonitoring := isMonitoring st;
     buffer := buffer st; progressLine := progressLine st; log := log st;
     next_node := next_node st; butConnect_text := butConnect_text st;
     butProgram_disabled := butProgram_disabled st;
     butTerminal_disabled := butTerminal_disabled st;
     butTerminal_text := butTerminal_text st;
     butTerminal_color := butTerminal_color st;
     firmwareSelect_value := firmwareSelect_value st; trace := trace st |}.
Definition set_esploader (v : option loader) (st : session) : session :=
  {| device := device st; transport := transport st; esploader := v;
     port := port st; reader := reader st; isMonitoring := isMonitoring st;
     buffer := buffer st; progressLine := progressLine st; log := log st;
     next_node := next_node st; butConnect_text := butConnect_text st;
     butProgram_disabled := butProgram_disabled st;
     butTerminal_disabled := butTerminal_disabled st;
     butTerminal_text := butTerminal_text st;
     butTerminal_color := butTerminal_color st;
     firmwareSelect_value := firmwareSelect_value st; trace := trace st |}.
Definition set_port (v : option handle) (st : session) : session :=
  {| device := device st; transport := transport st;
     esploader := esploader st; port := v; reader := reader st;
     isMonitoring := isMonitoring st; buffer := buffer st;
     progressLine := progressLine st; log := log st; next_node := next_node st;
     butConnect_text := butConnect_text st;
     butProgram_disabled := butProgram_disabled st;
     butTerminal_disabled := butTerminal_disabled st;
     butTerminal_text := butTerminal_text st;
     butTerminal_color := butTerminal_color st;
     firmwareSelect_value := firmwareSelect_value st; trace := trace st |}.
Definition set_reader (v : bool) (st : session) : session :=
  {| device := device st; transport := transport st;
     esploader := esploader st; port := port st; reader := v;
     isMonitoring := isMonitoring st; buffer := buffer st;
     progressLine := progressLine st; log := log st; next_node := next_node st;
     butConnect_text := butConnect_text st;
     butProgram_disabled := butProgram_disabled st;
     butTerminal_disabled := butTerminal_disabled st;
     butTerminal_text := butTerminal_text st;
     butTerminal_color := butTerminal_color st;
     firmwareSelect_value := firmwareSelect_value st; trace := trace st |}.
Definition set_isMonitoring (v : bool) (st : session) : session :=
  {| device := device st; transport := transport st;
     esploader := esploader st; port := port st; reader := reader st;
     isMonitoring := v; buffer := buffer st; progressLine := progressLine st;
     log := log st; next_node := next_node st;
     butConnect_text := butConnect_text st;
     butProgram_disabled := butProgram_disabled st;
     butTerminal_disabled := butTerminal_disabled st;
     butTerminal_text := butTerminal_text st;
     butTerminal_color := butTerminal_color st;
     firmwareSelect_value := firmwareSelect_value st; trace := trace st |}.
Definition set_buffer (v : jsstring) (st : session) : session :=
  {| device := device st; transport := transport st;
     esploader := esploader st; port := port st; reader := reader st;
     isMonitoring := isMonitoring st; buffer := v;
     progressLine := progressLine st; log := log st; next_node := next_node st;
     butConnect_text := butConnect_text st;
     butProgram_disabled := butProgram_disabled st;
     butTerminal_disabled := butTerminal_disabled st;
     butTerminal_text := butTerminal_text st;
     butTerminal_color := butTerminal_color st;
     firmwareSelect_value := firmwareSelect_value st; trace := trace st |}.
Definition set_progressLine (v : option nat) (st : session) : session :=
  {| device := device st; transport := transport st;
     esploader := esploader st; port := port st; reader := reader st;
     isMonitoring := isMonitoring st; buffer := buffer st; progressLine := v;
     log := log st; next_node := next_node st;
     butConnect_text := butConnect_text st;
     butProgram_disabled := butProgram_disabled st;
     butTerminal_disabled := butTerminal_disabled st;
     butTerminal_text := butTerminal_text st;
     butTerminal_color := butTerminal_color st;
     firmwareSelect_value := firmwareSelect_value st; trace := trace st |}.
Definition set_log (v : list (nat * entry)) (st : session) : session :=
  {| device := device st; transport := transport st;
     esploader := esploader st; port := port st; reader := reader st;
     isMonitoring := isMonitoring st; buffer := buffer st;
     progressLine := progressLine st; log := v; next_node := next_node st;
     butConnect_text := butConnect_text st;
     butProgram_disabled := butProgram_disabled st;
     butTerminal_disabled := butTerminal_disabled st;
     butTerminal_text := butTerminal_text st;
     butTerminal_color := butTerminal_color st;
     firmwareSelect_value := firmwareSelect_value st; trace := trace st |}.
Definition set_next_node (v : nat) (st : session) : session :=
  {| device := device st; transport := transport st;
     esploader := esploader st; port := port st; reader := reader st;
     isMonitoring := isMonitoring st; buffer := buffer st;
     progressLine := progressLine st; log := log st; next_node := v;
     butConnect_text := butConnect_text st;
     butProgram_disabled := butProgram_disabled st;
     butTerminal_disabled := butTerminal_disabled st;
     butTerminal_text := butTerminal_text st;
     butTerminal_color := butTerminal_color st;
     firmwareSelect_value := firmwareSelect_value st; trace := trace st |}.
Definition set_butConnect_text (v : jsstring) (st : session) : session :=
  {| device := device st; transport := transport st;
     esploader := esploader st; port := port st; reader := reader st;
     isMonitoring := isMonitoring st; buffer := buffer st;
     progressLine := progressLine st; log := log st; next_node := next_node st;
     butConnect_text := v; butProgram_disabled := butProgram_disabled st;
     butTerminal_disabled := butTerminal_disabled st;
     butTerminal_text := butTerminal_text st;
     butTerminal_color := butTerminal_color st;
     firmwareSelect_value := firmwareSelect_value st; trace := trace st |}.
Definition set_butProgram_disabled (v : bool) (st : session) : session :=
  {| device := device st; transport := transport st;
     esploader := esploader st; port := port st; reader := reader st;
     isMonitoring := isMonitoring st; buffer := buffer st;
     progressLine := progressLine st; log := log st; next_node := next_node st;
     butConnect_text := butConnect_text st; butProgram_disabled := v;
     butTerminal_disabled := butTerminal_disabled st;
     butTerminal_text := butTerminal_text st;
     butTerminal_color := butTerminal_color st;
     firmwareSelect_value := firmwareSelect_value st; trace := trace st |}.
Definition set_butTerminal_disabled (v : bool) (st : session) : session :=
  {| device := device st; transport := transport st;
     esploader := esploader st; port := port st; reader := reader st;
     isMonitoring := isMonitoring st; buffer := buffer st;
     progressLine := progressLine st; log := log st; next_node := next_node st;
     butConnect_text := butConnect_text st;
     butProgram_disabled := butProgram_disabled st; butTerminal_disabled := v;
     butTerminal_text := butTerminal_text st;
     butTerminal_color := butTerminal_color st;
     firmwareSelect_value := firmwareSelect_value st; trace := trace st |}.
Definition set_butTerminal_text (v : jsstring) (st : session) : session :=
  {| device := device st; transport := transport st;
     esploader := esploader st; port := port st; reader := reader st;
     isMonitoring := isMonitoring st; buffer := buffer st;
     progressLine := progressLine st; log := log st; next_node := next_node st;
     butConnect_text := butConnect_text st;
     butProgram_disabled := butProgram_disabled st;
     butTerminal_disabled := butTerminal_disabled st; butTerminal_text := v;
     butTerminal_color := butTerminal_color st;
     firmwareSelect_value := firmwareSelect_value st; trace := trace st |}.
Definition set_butTerminal_color (v : jsstring) (st : session) : session :=
  {| device := device st; transport := transport st;
     esploader := esploader st; port := port st; reader := reader st;
     isMonitoring := isMonitoring st; buffer := buffer st;
     progressLine := progressLine st; log := log st; next_node := next_node st;
     butConnect_text := butConnect_text st;
     butProgram_disabled := butProgram_disabled st;
     butTerminal_disabled := butTerminal_disabled st;
     butTerminal_text := butTerminal_text st; butTerminal_color := v;
     firmwareSelect_value := firmwareSelect_value st; trace := trace st |}.
Definition set_trace (v : list event) (st : session) : session :=
  {| device := device st; transport := transport st;
     esploader := esploader st; port := port st; reader := reader st;
     isMonitoring := isMonitoring st; buffer := buffer st;
     progressLine := progressLine st; log := log st; next_node := next_node st;
     butConnect_text := butConnect_text st;
     butProgram_disabled := butProgram_disabled st;
     butTerminal_disabled := butTerminal_disabled st;
     butTerminal_text := butTerminal_text st;
     butTerminal_color := butTerminal_color st;
     firmwareSelect_value := firmwareSelect_value st; trace := v |}.

(** The page as it is when the script is loaded and [DOMContentLoaded] has
    run: nothing connected, one log line, and the controls as the document
    declares them (the firmware selector on its first option). *)
Definition loaded : session :=
  {| device := None; transport := None; esploader := None; port := None;
     reader := false; isMonitoring := false; buffer := []; progressLine := None;
     log := [(O, Line (lit "Ideaboard Flasher & Terminal loaded."))];
     next_node := 1%nat;
     butConnect_text := lit "Connect";
     butProgram_disabled := true; butTerminal_disabled := true;
     butTerminal_text := lit "Terminal"; butTerminal_color := [];
     firmwareSelect_value := lit "firmware/ideaboardfirmware03202025.bin";
     trace := [] |}.

(* ================================================================= *)
(** ** Asynchronous functions *)

(** The way a run of an [async] function stands: it has returned, it has
    thrown, or it is suspended at an [await] that has not settled yet. *)
Inductive outcome (A : Type) : Type :=
| Ret (a : A)
| Throw (e : exn)
| Pending.
Arguments Ret {A} a.
Arguments Throw {A} e.
Arguments Pending {A}.

Definition M (A : Type) : Type := session -> outcome A * session.

Definition ret {A} (a : A) : M A := fun st => (Ret a, st).
Definition throw {A} (e : exn) : M A := fun st => (Throw e, st).
Definition bind {A B} (m : M A) (f : A -> M B) : M B :=
  fun st =>
    match m st with
    | (Ret a, st') => f a st'
    | (Throw e, st') => (Throw e, st')
    | (Pending, st') => (Pending, st')
    end.

Notation "x <- m ;; k" := (bind m (fun x => k))
  (at level 61, m at next level, right associativity).
Notation "m ;; k" := (bind m (fun _ => k))
  (at level 61, right associativity).

Definition get {A} (f : session -> A) : M A := fun st => (Ret (f st), st).
Definition modify (f : session -> session) : M unit := fun st => (Ret tt, f st).

(** [await] of a call on a collaborator: the call is recorded, then it
    settles the way the world has it. *)
Definition call {A} (ev : event) (r : result A) : M A :=
  fun st =>
    let st' := set_trace (trace st ++ [ev]) st in
    match r with
    | Ok a => (Ret a, st')
    | Err e => (Throw e, st')
    end.

(** [try { body } catch (e) { handler }] *)
Definition try_catch {A} (body : M A) (handler : exn -> M A) : M A :=
  fun st =>
    match body st with
    | (Throw e, st') => handler e st'
    | other => other
    end.

(** [try { body } finally { final }]: [final] runs when [body] has returned
    or thrown; what it throws replaces the outcome of [body]. *)
Definition try_finally {A} (body : M A) (final : M unit) : M A :=
  fun st =>
    match body st with
    | (Pending, st') => (Pending, st')
    | (o, st') =>
        match final st' with
        | (Ret _, st'') => (o, st'')
        | (Throw e, st'') => (Throw e, st'')
        | (Pending, st'') => (Pending, st'')
        end
    end.

Definition when (b : bool) (m : M unit) : M unit := if b then m else ret tt.

Definition is_some {A} (o : option A) : bool :=
  match o with Some _ => true | None => false end.

(* ================================================================= *)
(** ** The log pane *)

(** [node.textContent = text] on the node [id], when it is in the pane. *)
Definition set_text (id : nat) (text : jsstring) (l : list (nat * entry))
  : list (nat * entry) :=
  map (fun ne => if Nat.eqb (fst ne) id then (id, Line text) else ne) l.

(** [log.appendChild] of a new node. *)
Definition append_node (e : entry) (st : session) : session :=
  set_next_node (S (next_node st))
    (set_log (log st ++ [(next_node st, e)]) st).

Definition logLine (text : jsstring) : M unit :=
  fun st =>
    if startsWith (lit "Programming: ") text || startsWith (lit "Writing at") text
    then
      let st1 :=
        match progressLine st with
        | None => set_progressLine (Some (next_node st)) (append_node (Line []) st)
        | Some _ => st
        end in
      match progressLine st1 with
      | Some id => (Ret tt, set_log (set_text id text (log st1)) st1)
      | None => (Ret tt, st1)
      end
    else (Ret tt, append_node (Line text) st).

Definition logError (text : jsstring) : M unit :=
  modify (append_node (ErrorSpan text)).

Definition toggleUI (connected : bool) : M unit :=
  modify (fun st =>
    set_butTerminal_disabled (negb connected)
      (set_butProgram_disabled (negb connected)
        (set_butConnect_text
           (if connected then lit "Disconnect" else lit "Connect") st))).

(** A number in a template literal. *)
Definition decimal (z : Z) : jsstring :=
  lit (DecimalString.NilZero.string_of_int (Z.to_int z)).
(** [n.toString(16)] for a natural number. *)
Definition hexadecimal (z : Z) : jsstring :=
  lit (HexadecimalString.NilZero.string_of_uint (N.to_hex_uint (Z.to_N z))).

(* ================================================================= *)
(** ** The world around the page *)

(** What the flasher client writes on the terminal object it was given. *)
Inductive terminal_call : Type :=
| TermClean
| TermWriteLine (data : jsstring)
| TermWrite (data : jsstring).

(** A call on the flasher client: what it writes while it runs, and the way
    it settles. *)
Record flasher_call : Type := {
  output : list terminal_call;
  settles : result unit
}.

(** The response of [fetch]. *)
Record response : Type := {
  ok : bool;
  arrayBuffer : result (list byte)
}.

(** The calls that release the port, for one run of a handler: the way
    [reader.cancel()], [transport.disconnect()] and [port.close()] settle,
    and whether [port.readable] is set when the handler tests it. By the
    Streams standard [reader.cancel()] resolves on a stream that has ended,
    and rejects with the error the stream keeps on a stream that a failed
    read has left errored. *)
Record teardown_world : Type := {
  w_cancel : result unit;
  w_disconnect : result unit;
  w_readable : bool;
  w_close : result unit
}.

Record connect_world : Type := {
  w_requestPort : result handle;
  w_connect_teardown : teardown_world
}.

Record program_world : Type := {
  w_confirm : bool;
  w_main : flasher_call;
  w_erase : flasher_call;
  w_fetch : result response;
  w_write : flasher_call;
  (* the four readings of [Date.now()] *)
  w_eraseStart : Z;
  w_eraseEnd : Z;
  w_programStart : Z;
  w_programEnd : Z;
  w_program_teardown : teardown_world
}.

(** The way one [reader.read()] settles. *)
Inductive read_result : Type :=
| Chunk (value : list byte)
| Done
| ReadFails (e : exn).

(** For the terminal: the reads that settle during the run, in order; the
    read after the last of them stays pending. *)
Record terminal_world : Type := {
  w_open : result unit;
  w_getReader : result unit;
  w_reads : list read_result;
  w_terminal_teardown : teardown_world
}.

(* ================================================================= *)
(** ** The handlers *)

Definition stopMonitoring (t : teardown_world) : M unit :=
  modify (set_isMonitoring false);;
  modify (set_butTerminal_text (lit "Terminal"));;
  modify (set_butTerminal_color []);;
  r <- get reader;;
  when r
    (call ReaderCancel (w_cancel t);;
     call ReaderReleaseLock (Ok tt);;
     modify (set_reader false));;
  p <- get port;;
  when (is_some p && w_readable t) (call PortClose (w_close t));;
  modify (set_port None);;
  modify (set_device None);;
  toggleUI false;;
  logLine (lit "Terminal stopped.").

Definition clickConnect (w : connect_world) : M unit :=
  let t := w_connect_teardown w in
  tr <- get transport;;
  p <- get port;;
  if is_some tr || is_some p then
    m <- get isMonitoring;;
    if m then stopMonitoring t
    else
      when (is_some tr)
        (call TransportDisconnect (w_disconnect t);;
         modify (set_transport None));;
      when (is_some p && w_readable t) (call PortClose (w_close t));;
      modify (set_device None);;
      modify (set_port None);;
      toggleUI false;;
      logLine (lit "Disconnected from serial port.")
  else
    try_catch
      (d <- call RequestPort (w_requestPort w);;
       modify (set_device (Some d));;
       modify (set_port (Some d));;
       modify (set_transport (Some d));;
       toggleUI true;;
       logLine (lit "Connected to serial port."))
      (fun e =>
         logError (lit "Failed to connect: " ++ message e);;
         toggleUI false).

(** The terminal object handed to the flasher client. *)
Definition terminal (c : terminal_call) : M unit :=
  match c with
  | TermClean => modify (set_log [])
  | TermWriteLine data => logLine data
  | TermWrite data => logLine data
  end.

Fixpoint terminal_output (l : list terminal_call) : M unit :=
  match l with
  | [] => ret tt
  | c :: l' => terminal c;; terminal_output l'
  end.

(** [await] of a call on the flasher client. *)
Definition flasher (ev : event) (c : flasher_call) : M unit :=
  call ev (Ok tt);;
  terminal_output (output c);;
  match settles c with
  | Ok _ => ret tt
  | Err e => throw e
  end.

(** The block of the [try] statement of [clickProgram]. *)
Definition program_try (w : program_world) (the_transport : handle)
  (selectedFirmware : jsstring) : M unit :=
  call (NewESPLoader FLASH_BAUD_RATE) (Ok tt);;
  modify (set_esploader
    (Some {| ld_transport := the_transport; ld_baudrate := FLASH_BAUD_RATE |}));;
  flasher (LoaderMain (lit "default_reset")) (w_main w);;
  logLine (lit "Erasing flash...");;
  flasher EraseFlash (w_erase w);;
  logLine (lit "Erase completed in "
           ++ decimal (w_eraseEnd w - w_eraseStart w) ++ lit "ms.");;
  logLine (lit "Fetching firmware...");;
  response <- call (Fetch selectedFirmware) (w_fetch w);;
  if negb (ok response) then
    throw (Error (lit "Failed to fetch firmware"))
  else
    buf <- call ArrayBuffer (arrayBuffer response);;
    let firmwareData := arrayBufferToBinaryString buf in
    let flashOptions :=
      {| fileArray := [(firmwareData, FLASH_OFFSET)];
         flashSize := lit "keep";
         eraseAll := false;
         compress := true |} in
    logLine (lit "Programming firmware at offset 0x"
             ++ hexadecimal FLASH_OFFSET ++ lit "...");;
    flasher (WriteFlash flashOptions) (w_write w);;
    logLine (lit "Programming completed in "
             ++ decimal (w_programEnd w - w_programStart w) ++ lit "ms.");;
    logLine (lit
      "Firmware installed successfully. Click Terminal and reset your device.").

(** Its [finally] block. *)
Definition program_finally (t : teardown_world) : M unit :=
  modify (set_butProgram_disabled false);;
  tr <- get transport;;
  when (is_some tr)
    (call TransportDisconnect (w_disconnect t);;
     modify (set_transport None));;
  p <- get port;;
  when (is_some p && w_readable t)
    (call PortClose (w_close t);;
     modify (set_port None));;
  modify (set_esploader None).

Definition clickProgram (w : program_world) : M unit :=
  tr <- get transport;;
  match tr with
  | None => logError (lit "Please connect to a serial port first.")
  | Some the_transport =>
    selectedFirmware <- get firmwareSelect_value;;
    if negb (truthy selectedFirmware) then
      logError (lit "Please select a firmware file first.")
    else
      confirmed <- call Confirm (Ok (w_confirm w));;
      if negb confirmed then ret tt
      else
        modify (set_butProgram_disabled true);;
        modify (set_progressLine None);;
        try_finally
          (try_catch
             (program_try w the_transport selectedFirmware)
             (fun e => logError (message e)))
          (program_finally (w_program_teardown w))
  end.

(** The inner loop [while ((newlineIndex = buffer.indexOf('\n')) !== -1)].
    Each turn shortens the buffer; [fuel] bounds the number of turns. *)
Fixpoint split_lines_loop (fuel : nat) : M unit :=
  match fuel with
  | O => ret tt
  | S fuel' =>
      b <- get buffer;;
      match indexOf LF b with
      | None => ret tt
      | Some newlineIndex =>
          let line := substring 0 newlineIndex b in
          let cleanedLine := cleanSerialOutput line in
          when (truthy cleanedLine) (logLine cleanedLine);;
          modify (fun st =>
            set_buffer (substring_from (newlineIndex + 1) (buffer st)) st);;
          split_lines_loop fuel'
      end
  end.

Definition split_lines : M unit :=
  fun st => split_lines_loop (S (List.length (buffer st))) st.

(** The way one turn of the reading loop ends. *)
Inductive signal : Type := Continue | Break.

(** One turn of [while (isMonitoring)], with the read settling as [r]. *)
Definition read_turn (r : read_result) : M signal :=
  try_catch
    (rd <- call ReaderRead
             match r with
             | Chunk value => Ok (Some value)
             | Done => Ok None
             | ReadFails e => Err e
             end;;
     match rd with
     | None =>
         b <- get buffer;;
         when (truthy b)
           (let cleanedBuffer := cleanSerialOutput b in
            when (truthy cleanedBuffer) (logLine cleanedBuffer);;
            modify (set_buffer []));;
         logLine (lit "Serial stream ended.");;
         ret Break
     | Some value =>
         let text := Utf8.decode value in
         modify (fun st => set_buffer (buffer st ++ text) st);;
         split_lines;;
         ret Continue
     end)
    (fun e =>
       if includes (lit "device has been lost") (message e) then
         logError (lit "Device lost, please reconnect and try again.");;
         ret Break
       else throw e).

Fixpoint read_loop (reads : list read_result) : M unit :=
  m <- get isMonitoring;;
  if negb m then ret tt
  else
    match reads with
    | [] => fun st => (Pending, set_trace (trace st ++ [ReaderRead]) st)
    | r :: rest =>
        s <- read_turn r;;
        match s with
        | Break => ret tt
        | Continue => read_loop rest
        end
    end.

(** The block of the [try] statement of [clickTerminal]. *)
Definition terminal_try (w : terminal_world) : M unit :=
  logLine (lit "Reset your device now, waiting 2 seconds...");;
  call (Sleep 2000) (Ok tt);;
  call (PortOpen TERM_BAUD_RATE) (w_open w);;
  logLine (lit "Terminal started at " ++ decimal TERM_BAUD_RATE
           ++ lit " baud. Click Stop to end.");;
  modify (set_isMonitoring true);;
  modify (set_butTerminal_text (lit "Stop"));;
  modify (set_butTerminal_color (lit "#e74c3c"));;
  modify (set_log []);;
  modify (set_buffer []);;
  call GetReader (w_getReader w);;
  modify (set_reader true);;
  read_loop (w_reads w).

Definition clickTerminal (w : terminal_world) : M unit :=
  let t := w_terminal_teardown w in
  m <- get isMonitoring;;
  if m then stopMonitoring t
  else
    p <- get port;;
    if negb (is_some p) then
      logError (lit "Please connect to a serial port first.")
    else
      try_finally
        (try_catch
           (terminal_try w)
           (fun e => logError (lit "Terminal failed: " ++ message e)))
        (m' <- get isMonitoring;;
         when m' (stopMonitoring t)).

(* ================================================================= *)
(** * Properties *)

(* ================================================================= *)
(** ** The matcher and [replace] *)

Section ReplaceFacts.

Variable r : regex.
Variable rep : jsstring.

(** What [replace] returns is made of characters of the input and of the
    replacement. *)
Lemma replace_from_chars (s : jsstring) :
  forall skip c, In c (replace_from r rep skip s) -> In c s \/ In c rep.
Proof.
  induction s as [|x t IH]; intros skip c; simpl.
  - destruct skip; [destruct (match_at r [])|]; simpl; tauto.
  - destruct skip as [|n].
    + destruct (match_at r (x :: t)) as [[|n]|]; simpl;
        rewrite ?in_app_iff; simpl; intros H.
      * destruct H as [H|[H|H]]; auto. apply IH in H. tauto.
      * destruct H as [H|H]; auto. apply IH in H. tauto.
      * destruct H as [H|H]; auto. apply IH in H. tauto.
    + intros H. apply IH in H. tauto.
Qed.

(** Where the regex matches at no position, [replace] changes nothing. *)
Lemma replace_all_no_match (s : jsstring) :
  match_at r [] = None ->
  (forall s1 x s2, s = s1 ++ x :: s2 -> match_at r (x :: s2) = None) ->
  replace_all r rep s = s.
Proof.
  intros Hnil. unfold replace_all.
  induction s as [|x t IH]; intros H; simpl.
  - now rewrite Hnil.
  - rewrite (H [] x t eq_refl). f_equal. apply IH.
    intros s1 y s2 ->. apply (H (x :: s1) y s2). reflexivity.
Qed.

End ReplaceFacts.

(** A regex that begins with a character matches only where that character
    stands. *)
Lemma match_at_first_char (c : Z) (r : regex) (x : Z) (s : jsstring) :
  x <> c -> match_at (Seq (Chr c) r) (x :: s) = None.
Proof.
  intros H. unfold match_at. simpl.
  destruct (Z.eqb_spec x c); [contradiction | reflexivity].
Qed.

Lemma replace_all_first_char_absent (c : Z) (r : regex) (rep s : jsstring) :
  ~ In c s -> replace_all (Seq (Chr c) r) rep s = s.
Proof.
  intros H. apply replace_all_no_match; [reflexivity|].
  intros s1 x s2 ->. apply match_at_first_char.
  intros ->. apply H. rewrite in_app_iff. simpl. tauto.
Qed.

Lemma replace_all_char_absent (c : Z) (rep s : jsstring) :
  ~ In c s -> replace_all (Chr c) rep s = s.
Proof.
  intros H. apply replace_all_no_match; [reflexivity|].
  intros s1 x s2 ->. unfold match_at. simpl.
  destruct (Z.eqb_spec x c) as [->|]; [|reflexivity].
  exfalso. apply H. rewrite in_app_iff. simpl. tauto.
Qed.

(** Removing the matches of a character class is a filter. *)
Lemma replace_all_class (p : Z -> bool) (s : jsstring) :
  replace_all (Cls p) [] s = filter (fun c => negb (p c)) s.
Proof.
  unfold replace_all. induction s as [|x t IH]; [reflexivity|].
  cbn [replace_from filter]. unfold match_at. cbn [run].
  destruct (p x); cbn [negb].
  - replace (List.length (x :: t) - List.length t)%nat with 1%nat
      by (cbn [List.length]; lia).
    simpl. exact IH.
  - now rewrite IH.
Qed.

(* ================================================================= *)
(** ** cleanSerialOutput: what it leaves *)

Definition no_control (s : jsstring) : Prop :=
  Forall (fun c => control c = false) s.

Lemma strip_control_no_control (s : jsstring) : no_control (strip_control s).
Proof.
  unfold strip_control, re_control, no_control. rewrite replace_all_class.
  apply Forall_forall. intros c Hc. apply filter_In in Hc.
  destruct Hc as [_ Hc]. now apply negb_true_iff in Hc.
Qed.

Lemma no_control_not_in (s : jsstring) (c : Z) :
  no_control s -> control c = true -> ~ In c s.
Proof.
  intros Hs Hc Hin. unfold no_control in Hs. rewrite Forall_forall in Hs.
  apply Hs in Hin. congruence.
Qed.

Lemma cleanSerialOutput_no_control (text : jsstring) :
  no_control (cleanSerialOutput text).
Proof.
  unfold cleanSerialOutput.
  set (s := strip_osc_either _).
  pose proof (strip_control_no_control s) as H.
  unfold no_control in *. rewrite Forall_forall in *.
  intros c Hc. unfold drop_cr, crlf_to_lf, replace_all in Hc.
  apply replace_from_chars in Hc. destruct Hc as [Hc|[]].
  apply replace_from_chars in Hc. destruct Hc as [Hc|[<-|[]]]; auto.
Qed.

(** A string without control characters is left as it is. *)
Lemma cleanSerialOutput_fixed (s : jsstring) :
  no_control s -> cleanSerialOutput s = s.
Proof.
  intros H.
  assert (Hesc : ~ In 0x1B s) by (apply no_control_not_in; [assumption | reflexivity]).
  assert (Hcr : ~ In 0x0D s) by (apply no_control_not_in; [assumption | reflexivity]).
  unfold cleanSerialOutput, strip_csi, strip_osc_bel, strip_osc_backslash,
    strip_osc_either, re_csi, re_osc_bel, re_osc_backslash, re_osc_either.
  cbn [chars].
  rewrite !(replace_all_first_char_absent 0x1B _ _ s) by assumption.
  unfold strip_control, re_control. rewrite replace_all_class.
  assert (Hf : filter (fun c => negb (control c)) s = s).
  { apply forallb_filter_id. apply forallb_forall. intros c Hc.
    unfold no_control in H. rewrite Forall_forall in H.
    now rewrite (H c Hc). }
  rewrite Hf. unfold crlf_to_lf, drop_cr, re_crlf, re_cr. cbn [chars].
  rewrite (replace_all_first_char_absent 0x0D _ _ s) by assumption.
  now apply replace_all_char_absent.
Qed.

(** C9: whatever the input, the cleaned string holds no carriage return and
    no character of 0x00-0x09, 0x0B-0x1F or 0x7F-0x9F: of the control
    characters only the line feed 0x0A can be left. *)
Theorem cleanSerialOutput_only_lf_control (text : jsstring) :
  Forall (fun c =>
            c <> 0x0D /\
            ~ (0x00 <= c <= 0x09) /\
            ~ (0x0B <= c <= 0x1F) /\
            ~ (0x7F <= c <= 0x9F))
         (cleanSerialOutput text).
Proof.
  pose proof (cleanSerialOutput_no_control text) as H.
  unfold no_control in H. rewrite Forall_forall in *.
  intros c Hc. specialize (H c Hc).
  unfold control, range in H.
  repeat (apply orb_false_iff in H; destruct H as [H ?]).
  repeat match goal with
         | h : (_ && _) = false |- _ => apply andb_false_iff in h
         end.
  rewrite ?Z.leb_gt in *. lia.
Qed.

(** C5: cleaning is idempotent. *)
Theorem cleanSerialOutput_idempotent (s : jsstring) :
  cleanSerialOutput (cleanSerialOutput s) = cleanSerialOutput s.
Proof.
  apply cleanSerialOutput_fixed, cleanSerialOutput_no_control.
Qed.

(* ================================================================= *)
(** ** arrayBufferToBinaryString *)

Lemma byte_val_range (b : byte) : 0 <= byte_val b < 256.
Proof.
  unfold byte_val. pose proof (Byte.to_N_bounded b). lia.
Qed.

Lemma fromCharCode_byte (b : byte) :
  fromCharCode (Some (byte_val b)) = byte_val b.
Proof.
  unfold fromCharCode. pose proof (byte_val_range b).
  apply Z.mod_small. lia.
Qed.

Lemma skipn_nth_error {A} (l : list A) :
  forall i x, nth_error l i = Some x -> skipn i l = x :: skipn (S i) l.
Proof.
  induction l as [|a l IH]; intros [|i] x H; simpl in *; try discriminate.
  - congruence.
  - now apply IH.
Qed.

(** The loop, started at index [i] with [n] bytes to go, appends the
    values of the bytes from [i] on. *)
Lemma binary_string_loop_spec (bytes : list byte) :
  forall n i acc,
    (i + n = List.length bytes)%nat ->
    binary_string_loop bytes n i acc = acc ++ map byte_val (skipn i bytes).
Proof.
  induction n as [|n IH]; intros i acc Hlen; simpl.
  - rewrite skipn_all2 by lia. simpl. now rewrite app_nil_r.
  - destruct (nth_error bytes i) as [b|] eqn:Hb.
    + rewrite IH by lia. simpl option_map. rewrite fromCharCode_byte.
      rewrite (skipn_nth_error bytes i b Hb). simpl.
      now rewrite <- app_assoc.
    + apply nth_error_None in Hb. lia.
Qed.

(** C10: the binary string of a buffer has one character for each byte, in
    order, the character at index [i] having the value of the byte at [i];
    all its character codes are below 256. *)
Theorem arrayBufferToBinaryString_spec (arrayBuffer : list byte) :
  List.length (arrayBufferToBinaryString arrayBuffer) = List.length arrayBuffer /\
  (forall i : nat,
     nth_error (arrayBufferToBinaryString arrayBuffer) i
     = option_map byte_val (nth_error arrayBuffer i)) /\
  Forall (fun c => 0 <= c < 256) (arrayBufferToBinaryString arrayBuffer).
Proof.
  assert (H : arrayBufferToBinaryString arrayBuffer = map byte_val arrayBuffer).
  { unfold arrayBufferToBinaryString.
    now rewrite binary_string_loop_spec by reflexivity. }
  rewrite H. split; [apply length_map|]. split.
  - intros i. apply nth_error_map.
  - apply Forall_forall. intros c Hc. apply in_map_iff in Hc.
    destruct Hc as (b & <- & _). apply byte_val_range.
Qed.

(* ================================================================= *)
(** ** The terminal reader *)

(** The state a run leaves. *)
Definition exec {A} (m : M A) (st : session) : session := snd (m st).

Lemma logLine_returns (text : jsstring) (st : session) :
  logLine text st = (Ret tt, exec (logLine text) st).
Proof.
  unfold exec, logLine.
  destruct (startsWith _ text || startsWith _ text); [|reflexivity].
  destruct (progressLine st) eqn:E; simpl; rewrite ?E; reflexivity.
Qed.

Lemma logLine_buffer (text : jsstring) (st : session) :
  buffer (exec (logLine text) st) = buffer st.
Proof.
  unfold exec, logLine.
  destruct (startsWith _ text || startsWith _ text); [|reflexivity].
  destruct (progressLine st) eqn:E; simpl; rewrite ?E; reflexivity.
Qed.

(** What the inner loop does with one candidate line: the cleaned line is
    logged when it is not empty. *)
Definition candidate (line : jsstring) : M unit :=
  when (truthy (cleanSerialOutput line)) (logLine (cleanSerialOutput line)).

Lemma candidate_returns (line : jsstring) (st : session) :
  candidate line st = (Ret tt, exec (candidate line) st).
Proof.
  unfold candidate, when, exec.
  destruct (truthy _); [|reflexivity].
  now rewrite logLine_returns.
Qed.

Lemma candidate_buffer (line : jsstring) (st : session) :
  buffer (exec (candidate line) st) = buffer st.
Proof.
  unfold candidate, when.
  destruct (truthy _); [apply logLine_buffer | reflexivity].
Qed.

(** One turn of the inner loop. *)
Definition next_line (i : nat) (st : session) : session :=
  let st' := exec (candidate (firstn i (buffer st))) st in
  set_buffer (skipn (i + 1) (buffer st')) st'.

Lemma split_lines_loop_unfold (fuel : nat) (st : session) :
  split_lines_loop (S fuel) st =
  match indexOf LF (buffer st) with
  | None => (Ret tt, st)
  | Some i => split_lines_loop fuel (next_line i st)
  end.
Proof.
  cbn [split_lines_loop]. unfold bind at 1, get.
  destruct (indexOf LF (buffer st)) as [i|]; [|reflexivity].
  unfold bind at 1. fold (candidate (substring 0 i (buffer st))).
  unfold substring. rewrite Nat.sub_0_r. cbn [skipn].
  rewrite candidate_returns. unfold bind, modify, substring_from.
  reflexivity.
Qed.

Lemma indexOf_Some (c : Z) (s : jsstring) :
  forall i, indexOf c s = Some i ->
            s = firstn i s ++ c :: skipn (i + 1) s /\ ~ In c (firstn i s).
Proof.
  induction s as [|x t IH]; intros i; simpl; [discriminate|].
  destruct (Z.eqb_spec x c) as [->|Hx].
  - intros [= <-]. simpl. auto.
  - destruct (indexOf c t) as [j|]; [|discriminate].
    intros [= <-]. destruct (IH j eq_refl) as [H1 H2]. simpl. split.
    + now rewrite <- H1.
    + intros [H|H]; auto.
Qed.

Lemma indexOf_None (c : Z) (s : jsstring) :
  indexOf c s = None <-> ~ In c s.
Proof.
  induction s as [|x t IH]; simpl; [tauto|].
  destruct (Z.eqb_spec x c) as [->|Hx].
  - split; [discriminate | tauto].
  - destruct (indexOf c t) as [j|].
    + split; [discriminate|]. intros H. exfalso.
      destruct (in_dec Z.eq_dec c t) as [Hin|Hout]; [tauto|].
      apply IH in Hout. discriminate.
    + split; [|reflexivity]. intros _ [H|H]; [congruence|].
      now apply IH in H.
Qed.

(** The first line feed of [line ++ LF :: rest] when [line] has none. *)
Lemma indexOf_line (line rest : jsstring) :
  ~ In LF line ->
  indexOf LF (line ++ LF :: rest) = Some (List.length line).
Proof.
  induction line as [|x t IH]; intros H; simpl.
  - reflexivity.
  - destruct (Z.eqb_spec x LF) as [->|_]; [exfalso; apply H; now left|].
    rewrite IH; [reflexivity|]. intros Hin. apply H. now right.
Qed.

Lemma next_line_buffer_length (i : nat) (st : session) :
  indexOf LF (buffer st) = Some i ->
  (List.length (buffer (next_line i st)) < List.length (buffer st))%nat.
Proof.
  intros H. apply indexOf_Some in H. destruct H as [H _].
  unfold next_line. cbn. rewrite candidate_buffer.
  rewrite H at 2. rewrite length_app. simpl. lia.
Qed.

(** The fuel [split_lines] gives the loop is enough: any fuel above the
    length of the buffer gives the same run. *)
Lemma split_lines_loop_fuel :
  forall f1 f2 st,
    (List.length (buffer st) < f1)%nat -> (List.length (buffer st) < f2)%nat ->
    split_lines_loop f1 st = split_lines_loop f2 st.
Proof.
  induction f1 as [|f1 IH]; intros f2 st H1 H2; [lia|].
  destruct f2 as [|f2]; [lia|].
  rewrite !split_lines_loop_unfold.
  destruct (indexOf LF (buffer st)) as [i|] eqn:Hi; [|reflexivity].
  pose proof (next_line_buffer_length i st Hi).
  apply IH; lia.
Qed.

(** The equation of the loop. *)
Lemma split_lines_unfold (st : session) :
  split_lines st =
  match indexOf LF (buffer st) with
  | None => (Ret tt, st)
  | Some i => split_lines (next_line i st)
  end.
Proof.
  unfold split_lines. rewrite split_lines_loop_unfold.
  destruct (indexOf LF (buffer st)) as [i|] eqn:Hi; [|reflexivity].
  pose proof (next_line_buffer_length i st Hi).
  apply split_lines_loop_fuel; lia.
Qed.

(** The loop returns, and it returns when no line feed is left. *)
Lemma split_lines_returns (st : session) :
  split_lines st = (Ret tt, exec split_lines st) /\
  indexOf LF (buffer (exec split_lines st)) = None.
Proof.
  remember (List.length (buffer st)) as n eqn:Hn.
  revert st Hn. induction n as [n IH] using lt_wf_ind. intros st Hn.
  unfold exec. rewrite split_lines_unfold.
  destruct (indexOf LF (buffer st)) as [i|] eqn:Hi.
  - pose proof (next_line_buffer_length i st Hi).
    apply (IH (List.length (buffer (next_line i st)))); [lia | reflexivity].
  - simpl. auto.
Qed.

(** C6: a candidate line whose cleaned form is empty leaves nothing: the
    loop goes on as if the line and its line feed had not been in the
    buffer, so no entry is added to the log for it. *)
Theorem empty_candidate_suppressed (st : session) (line rest : jsstring) :
  ~ In LF line ->
  cleanSerialOutput line = [] ->
  split_lines (set_buffer (line ++ LF :: rest) st)
  = split_lines (set_buffer rest st).
Proof.
  intros Hline Hclean.
  rewrite split_lines_unfold. cbn [buffer set_buffer].
  rewrite (indexOf_line line rest Hline).
  unfold next_line. cbn [buffer set_buffer].
  rewrite firstn_app, Nat.sub_diag, firstn_all. cbn [firstn].
  rewrite app_nil_r. unfold candidate at 1 2, exec. rewrite Hclean.
  cbn [truthy when ret snd buffer set_buffer].
  replace (List.length line + 1)%nat with (List.length (line ++ [LF]))
    by (rewrite length_app; reflexivity).
  replace (line ++ LF :: rest) with ((line ++ [LF]) ++ rest)
    by (now rewrite <- app_assoc).
  rewrite skipn_app, Nat.sub_diag, skipn_all. reflexivity.
Qed.

(** The chunk that is a carriage return and a line feed, and a line of
    control sequences only: an erase-line sequence, a title sequence and a
    colour reset. *)
Definition only_control_sequences : jsstring :=
  [ESC] ++ lit "[2K" ++ [ESC] ++ lit "]0;title" ++ [BEL] ++ [ESC] ++ lit "[0m".

Lemma empty_candidate_suppressed_witness :
  split_lines (set_buffer ([CR] ++ LF :: []) loaded)
  = split_lines (set_buffer [] loaded) /\
  split_lines (set_buffer (only_control_sequences ++ LF :: lit "next") loaded)
  = split_lines (set_buffer (lit "next") loaded).
Proof.
  split.
  - apply (empty_candidate_suppressed loaded [CR] []).
    + vm_compute. intros [H|[]]. discriminate H.
    + vm_compute. reflexivity.
  - apply (empty_candidate_suppressed loaded only_control_sequences (lit "next")).
    + vm_compute. intuition discriminate.
    + vm_compute. reflexivity.
Defined.

(** The three chunks of the example. *)
Definition chunk_hello : list byte := [x1b] ++ list_byte_of_string "[2Khello" ++ [x0a].
Definition chunk_wor : list byte := list_byte_of_string "wor".
Definition chunk_ld : list byte := list_byte_of_string "ld" ++ [x07; x0a].

(** C8: the chunks ESC [2Khello LF, then wor, then ld BEL LF, read while
    monitoring with an empty buffer, add exactly two lines to the log,
    hello and world, and leave the buffer empty, the loop waiting for the
    next read.  The bell of the second line is not touched by the passes for
    the escape sequences; the pass for the control characters removes it. *)
Theorem hello_world_example (st : session) :
  isMonitoring st = true ->
  buffer st = [] ->
  fst (read_loop [Chunk chunk_hello; Chunk chunk_wor; Chunk chunk_ld] st)
  = Pending /\
  map snd (log (exec (read_loop [Chunk chunk_hello; Chunk chunk_wor;
                                 Chunk chunk_ld]) st))
  = map snd (log st) ++ [Line (lit "hello"); Line (lit "world")] /\
  buffer (exec (read_loop [Chunk chunk_hello; Chunk chunk_wor; Chunk chunk_ld]) st)
  = [] /\
  strip_osc_either (strip_osc_backslash (strip_osc_bel (strip_csi
    (lit "world" ++ [BEL])))) = lit "world" ++ [BEL] /\
  strip_control (lit "world" ++ [BEL]) = lit "world".
Proof.
  destruct st as [dev tr ld po rd mon buf pl lg nn ct pd td tt' tc fv trc].
  cbn [isMonitoring buffer log]. intros -> ->.
  unfold exec. repeat split; try (vm_compute; reflexivity).
  transitivity (map snd ((lg ++ [(nn, Line (lit "hello"))])
                         ++ [(S nn, Line (lit "world"))])).
  - vm_compute. reflexivity.
  - rewrite !map_app. rewrite <- app_assoc. reflexivity.
Qed.

Lemma hello_world_example_witness :
  map snd (log (exec (read_loop [Chunk chunk_hello; Chunk chunk_wor;
                                 Chunk chunk_ld])
                     (set_isMonitoring true loaded)))
  = map snd (log loaded) ++ [Line (lit "hello"); Line (lit "world")].
Proof.
  apply (hello_world_example (set_isMonitoring true loaded));
    reflexivity.
Defined.

(* ================================================================= *)
(** ** Logging changes the log pane only *)

(** [st] with another log pane. *)
Definition with_log (lg : list (nat * entry)) (nn : nat) (pl : option nat)
  (st : session) : session :=
  set_progressLine pl (set_next_node nn (set_log lg st)).

Lemma session_eta (st : session) :
  st = with_log (log st) (next_node st) (progressLine st) st.
Proof. now destruct st. Qed.

Lemma logLine_shape (text : jsstring) (st : session) :
  exists lg nn pl, logLine text st = (Ret tt, with_log lg nn pl st).
Proof.
  rewrite logLine_returns.
  exists (log (exec (logLine text) st)), (next_node (exec (logLine text) st)),
    (progressLine (exec (logLine text) st)).
  f_equal. unfold exec, logLine.
  destruct (startsWith _ text || startsWith _ text);
    [destruct (progressLine st) eqn:E; simpl; rewrite ?E|];
    now destruct st.
Qed.

Lemma with_log_with_log lg nn pl lg' nn' pl' (st : session) :
  with_log lg nn pl (with_log lg' nn' pl' st) = with_log lg nn pl st.
Proof. reflexivity. Qed.

Lemma terminal_shape (c : terminal_call) (st : session) :
  exists lg nn pl, terminal c st = (Ret tt, with_log lg nn pl st).
Proof.
  destruct c; simpl; try apply logLine_shape.
  exists [], (next_node st), (progressLine st). reflexivity.
Qed.

Lemma terminal_output_shape (l : list terminal_call) :
  forall st, exists lg nn pl,
    terminal_output l st = (Ret tt, with_log lg nn pl st).
Proof.
  induction l as [|c l IH]; intros st; simpl.
  - exists (log st), (next_node st), (progressLine st).
    unfold ret. f_equal. apply session_eta.
  - unfold bind. destruct (terminal_shape c st) as (lg & nn & pl & ->).
    destruct (IH (with_log lg nn pl st)) as (lg' & nn' & pl' & ->).
    now exists lg', nn', pl'.
Qed.

(* ================================================================= *)
(** ** What a run leaves alone *)

(** [st'] has the variables and controls of [st], apart from the flasher
    client, the buffer, the log pane and the trace. *)
Definition same_controls (st st' : session) : Prop :=
  device st' = device st /\
  transport st' = transport st /\
  port st' = port st /\
  reader st' = reader st /\
  isMonitoring st' = isMonitoring st /\
  butConnect_text st' = butConnect_text st /\
  butProgram_disabled st' = butProgram_disabled st /\
  butTerminal_disabled st' = butTerminal_disabled st /\
  butTerminal_text st' = butTerminal_text st /\
  butTerminal_color st' = butTerminal_color st /\
  firmwareSelect_value st' = firmwareSelect_value st.

(** [st'] is [st] after the calls [evs], the controls untouched. *)
Definition extends (evs : list event) (st st' : session) : Prop :=
  trace st' = trace st ++ evs /\ same_controls st st'.

(** [st'] has every variable and every control of [st]: only the log pane
    and the trace may differ. *)
Definition same_variables (st st' : session) : Prop :=
  same_controls st st' /\
  esploader st' = esploader st /\
  buffer st' = buffer st /\
  progressLine st' = progressLine st.

Lemma same_controls_refl (st : session) : same_controls st st.
Proof. repeat split. Qed.

Lemma same_controls_trans (a b c : session) :
  same_controls a b -> same_controls b c -> same_controls a c.
Proof.
  unfold same_controls. intros H1 H2.
  repeat match goal with H : _ /\ _ |- _ => destruct H end.
  repeat split; congruence.
Qed.

Lemma extends_refl (st : session) : extends [] st st.
Proof. split; [now rewrite app_nil_r | apply same_controls_refl]. Qed.

Lemma extends_trans (e1 e2 : list event) (a b c : session) :
  extends e1 a b -> extends e2 b c -> extends (e1 ++ e2) a c.
Proof.
  intros [T1 C1] [T2 C2]. split.
  - rewrite T2, T1. now rewrite app_assoc.
  - eapply same_controls_trans; eassumption.
Qed.

Lemma extends_with_log lg nn pl (st : session) :
  extends [] st (with_log lg nn pl st).
Proof. split; [cbn; now rewrite app_nil_r | repeat split]. Qed.

Lemma extends_call (ev : event) (st : session) :
  extends [ev] st (set_trace (trace st ++ [ev]) st).
Proof. split; [reflexivity | repeat split]. Qed.

Lemma extends_buffer (b : jsstring) (st : session) :
  extends [] st (set_buffer b st).
Proof. split; [cbn; now rewrite app_nil_r | repeat split]. Qed.

Lemma extends_esploader (ld : option loader) (st : session) :
  extends [] st (set_esploader ld st).
Proof. split; [cbn; now rewrite app_nil_r | repeat split]. Qed.

Lemma logLine_run (text : jsstring) (st : session) :
  exists st', logLine text st = (Ret tt, st') /\ extends [] st st'.
Proof.
  destruct (logLine_shape text st) as (lg & nn & pl & ->).
  eexists. split; [reflexivity | apply extends_with_log].
Qed.

Lemma logError_run (text : jsstring) (st : session) :
  exists st', logError text st = (Ret tt, st') /\ extends [] st st'.
Proof.
  eexists. split; [reflexivity|].
  split; [cbn; now rewrite app_nil_r | repeat split].
Qed.

(** The outcome of an awaited call that has settled. *)
Definition settled {A} (r : result A) : outcome A :=
  match r with Ok a => Ret a | Err e => Throw e end.

Lemma call_run {A} (ev : event) (r : result A) (st : session) :
  exists st', call ev r st = (settled r, st') /\ extends [ev] st st'.
Proof.
  exists (set_trace (trace st ++ [ev]) st). split.
  - unfold call. now destruct r.
  - apply extends_call.
Qed.

Lemma flasher_run (ev : event) (c : flasher_call) (st : session) :
  exists st', flasher ev c st = (settled (settles c), st') /\
              extends [ev] st st'.
Proof.
  unfold flasher, bind, call.
  destruct (terminal_output_shape (output c) (set_trace (trace st ++ [ev]) st))
    as (lg & nn & pl & ->).
  eexists. split.
  - now destruct (settles c) as [[]|e].
  - apply (extends_trans [ev] [] _ (set_trace (trace st ++ [ev]) st));
      [apply extends_call | apply extends_with_log].
Qed.

(* ================================================================= *)
(** ** The equations of a run *)

(** A line that is no progress line becomes a new node of the log. *)
Lemma logLine_plain (text : jsstring) (st : session) :
  startsWith (lit "Programming: ") text || startsWith (lit "Writing at") text
  = false ->
  logLine text st = (Ret tt, append_node (Line text) st).
Proof. intros H. unfold logLine. now rewrite H. Qed.

Lemma bind_modify {B} (f : session -> session) (k : M B) (st : session) :
  (modify f;; k) st = k (f st).
Proof. reflexivity. Qed.

Lemma bind_call_ok {A B} (ev : event) (a : A) (k : A -> M B) (st : session) :
  (x <- call ev (Ok a);; k x) st = k a (set_trace (trace st ++ [ev]) st).
Proof. reflexivity. Qed.

Lemma bind_logLine_plain {B} (text : jsstring) (k : M B) (st : session) :
  startsWith (lit "Programming: ") text || startsWith (lit "Writing at") text
  = false ->
  (logLine text;; k) st = k (append_node (Line text) st).
Proof. intros H. unfold bind. now rewrite logLine_plain. Qed.

Lemma bind_get {A B} (f : session -> A) (k : A -> M B) (st : session) :
  (x <- get f;; k x) st = k (f st) st.
Proof. reflexivity. Qed.

Lemma bind_ret_eq {A B} (m : M A) (k : A -> M B) (a : A) (st st' : session) :
  m st = (Ret a, st') -> (x <- m;; k x) st = k a st'.
Proof. intros H. unfold bind. now rewrite H. Qed.

Lemma try_catch_ret {A} (body : M A) (h : exn -> M A) (a : A)
  (st st' : session) :
  body st = (Ret a, st') -> try_catch body h st = (Ret a, st').
Proof. intros H. unfold try_catch. now rewrite H. Qed.

Lemma try_finally_ret {A} (body : M A) (final : M unit) (a : A)
  (st st1 st2 : session) :
  body st = (Ret a, st1) -> final st1 = (Ret tt, st2) ->
  try_finally body final st = (Ret a, st2).
Proof. intros H1 H2. unfold try_finally. now rewrite H1, H2. Qed.

Lemma bind_call_err {A B} (ev : event) (e : exn) (k : A -> M B)
  (st : session) :
  (x <- call ev (Err e);; k x) st
  = (Throw e, set_trace (trace st ++ [ev]) st).
Proof. reflexivity. Qed.

Lemma try_catch_throw {A} (body : M A) (h : exn -> M A) (e : exn)
  (st st' : session) :
  body st = (Throw e, st') -> try_catch body h st = h e st'.
Proof. intros H. unfold try_catch. now rewrite H. Qed.

Lemma bind_throw_eq {A B} (m : M A) (k : A -> M B) (e : exn)
  (st st' : session) :
  m st = (Throw e, st') -> (x <- m;; k x) st = (Throw e, st').
Proof. intros H. unfold bind. now rewrite H. Qed.

Lemma try_finally_throws {A} (body : M A) (final : M unit) (a : A) (e : exn)
  (st st1 st2 : session) :
  body st = (Ret a, st1) -> final st1 = (Throw e, st2) ->
  try_finally body final st = (Throw e, st2).
Proof. intros H1 H2. unfold try_finally. now rewrite H1, H2. Qed.

(* ================================================================= *)
(** ** clickProgram *)

(** The options [clickProgram] builds for [writeFlash]. *)
Definition flash_options_of (buf : list byte) : flash_options :=
  {| fileArray := [(arrayBufferToBinaryString buf, FLASH_OFFSET)];
     flashSize := lit "keep"; eraseAll := false; compress := true |}.

(** The calls of the [try] block when every step succeeds, in order. *)
Definition program_calls (url : jsstring) (buf : list byte) : list event :=
  [NewESPLoader FLASH_BAUD_RATE; LoaderMain (lit "default_reset"); EraseFlash;
   Fetch url; ArrayBuffer; WriteFlash (flash_options_of buf)].

(** The firmware was fetched, and [buf] is its bytes. *)
Definition fetched (w : program_world) (buf : list byte) : Prop :=
  exists r, w_fetch w = Ok r /\ ok r = true /\ arrayBuffer r = Ok buf.

(** Proof steps: run the next action on the current state and add its calls
    to the ones made so far. *)
Ltac chain :=
  match goal with
  | X : extends _ _ ?b, Y : extends _ ?b _ |- _ =>
      let X' := fresh "X" in
      pose proof (extends_trans _ _ _ _ _ X Y) as X'; clear X Y;
      cbn [app] in X'
  end.

Ltac advance H :=
  let s := fresh "s" in
  let E := fresh "E" in
  let Y := fresh "Y" in
  destruct H as (s & E & Y);
  rewrite E; clear E; chain.

Ltac step :=
  try unfold bind at 1;
  match goal with
  | |- context [logLine ?t ?s] => advance (logLine_run t s)
  | |- context [logError ?t ?s] => advance (logError_run t s)
  | |- context [flasher ?ev ?c ?s] => advance (flasher_run ev c s)
  | |- context [@call ?A ?ev ?r ?s] => advance (@call_run A ev r s)
  end.

Ltac stop_at k buf :=
  cbn [settled]; step;
  exists k, buf; eexists; split; [reflexivity|];
  split; [eassumption|]; split; [lia|].

(** The [try] statement of [clickProgram] with its [catch]: it returns, the
    calls it has made being the first [k] of the sequence, and all six when
    every step succeeds. *)
Lemma program_try_run (w : program_world) (t : handle) (url : jsstring)
  (st : session) :
  exists k buf st',
    try_catch (program_try w t url) (fun e => logError (message e)) st
    = (Ret tt, st') /\
    extends (firstn k (program_calls url buf)) st st' /\
    (2 <= k <= 6)%nat /\
    (k = 6%nat -> fetched w buf) /\
    (forall b, settles (w_main w) = Ok tt -> settles (w_erase w) = Ok tt ->
               fetched w b -> k = 6%nat /\ buf = b).
Proof.
  pose proof (extends_refl st) as X.
  unfold try_catch, program_try, fetched.
  step. cbn [settled].
  unfold bind at 1, modify at 1.
  match goal with
  | |- context [set_esploader ?ld ?s] =>
      pose proof (extends_esploader ld s) as Y; chain;
      set (s' := set_esploader ld s) in *; clearbody s'
  end.
  step.
  destruct (settles (w_main w)) as [[]|e] eqn:Emain;
    [|stop_at 2%nat (@nil byte); split; [lia | intros; congruence]].
  cbn [settled]. step. step.
  destruct (settles (w_erase w)) as [[]|e] eqn:Eerase;
    [|stop_at 3%nat (@nil byte); split; [lia | intros; congruence]].
  cbn [settled]. step. step. step.
  destruct (w_fetch w) as [r|e] eqn:Efetch;
    [|stop_at 4%nat (@nil byte); split;
      [lia | intros b _ _ (r & H & _); congruence]].
  cbn [settled].
  destruct (ok r) eqn:Eok; cbn [negb];
    [|unfold throw; stop_at 4%nat (@nil byte); split;
      [lia | intros b _ _ (r' & H & H' & _); congruence]].
  step.
  destruct (arrayBuffer r) as [buf|e] eqn:Ebuf;
    [|stop_at 5%nat (@nil byte); split;
      [lia | intros b _ _ (r' & H & _ & H'); congruence]].
  cbn [settled]. cbv zeta. step. step. fold (flash_options_of buf) in *.
  assert (Hb : forall b, (exists r', Ok r = Ok r' /\ ok r' = true /\
                                     arrayBuffer r' = Ok b) -> buf = b).
  { intros b (r' & H & _ & H'). congruence. }
  destruct (settles (w_write w)) as [[]|e] eqn:Ewrite.
  - cbn [settled]. step. step.
    exists 6%nat, buf. eexists. split; [reflexivity|].
    split; [eassumption|]. split; [lia|]. split; [eauto|].
    intros b _ _ H. split; [reflexivity | now apply Hb].
  - stop_at 6%nat buf. split; [eauto|].
    intros b _ _ H. split; [reflexivity | now apply Hb].
Qed.

(** Projections of assignments. *)
Ltac norm_in_all :=
  cbn [device transport esploader port reader isMonitoring buffer progressLine
       log next_node butConnect_text butProgram_disabled butTerminal_disabled
       butTerminal_text butTerminal_color firmwareSelect_value trace
       set_device set_transport set_esploader set_port set_reader
       set_isMonitoring set_buffer set_progressLine set_log set_next_node
       set_butConnect_text set_butProgram_disabled set_butTerminal_disabled
       set_butTerminal_text set_butTerminal_color set_trace
       with_log append_node] in *.

(** The [finally] block, run where a transport is set. *)
Lemma program_finally_run (t : teardown_world) (s : session) (tr : handle) :
  transport s = Some tr ->
  exists o s' evs,
    program_finally t s = (o, s') /\
    trace s' = trace s ++ TransportDisconnect :: evs /\
    butProgram_disabled s' = false /\
    match w_disconnect t with
    | Err e => o = Throw e /\ evs = [] /\ port s' = port s
    | Ok _ =>
        transport s' = None /\
        if is_some (port s) && w_readable t then
          evs = [PortClose] /\
          match w_close t with
          | Ok _ => o = Ret tt /\ port s' = None /\ esploader s' = None
          | Err e => o = Throw e
          end
        else evs = [] /\ o = Ret tt /\ port s' = port s /\ esploader s' = None
    end.
Proof.
  intros Htr. unfold program_finally.
  unfold bind at 1, modify at 1. unfold bind at 1, get at 1.
  cbn [transport set_butProgram_disabled]. rewrite Htr. cbn [is_some when].
  unfold bind at 1. unfold bind at 1, call at 1.
  destruct (w_disconnect t) as [[]|e].
  - unfold modify at 1. unfold bind at 1, get at 1.
    cbn [port set_transport set_trace set_butProgram_disabled].
    destruct (is_some (port s) && w_readable t) eqn:Hp; cbn [when].
    + unfold bind at 1. unfold bind at 1, call at 1.
      destruct (w_close t) as [[]|e].
      * do 3 eexists. split; [reflexivity|]. cbn.
        rewrite <- app_assoc. repeat split.
      * do 3 eexists. split; [reflexivity|]. cbn.
        rewrite <- app_assoc. repeat split.
    + do 3 eexists. split; [reflexivity|]. cbn. repeat split.
  - do 3 eexists. split; [reflexivity|]. cbn. repeat split.
Qed.

(** A run of [clickProgram] that gets past its guards: the state the [try]
    statement leaves, then the [finally] block. *)
Lemma clickProgram_run (st : session) (w : program_world) (t : handle) :
  transport st = Some t ->
  truthy (firmwareSelect_value st) = true ->
  w_confirm w = true ->
  exists k buf s1,
    extends (Confirm :: firstn k (program_calls (firmwareSelect_value st) buf))
            st (set_butProgram_disabled (butProgram_disabled st) s1) /\
    clickProgram w st
    = try_finally (ret tt) (program_finally (w_program_teardown w)) s1 /\
    (2 <= k <= 6)%nat /\
    (k = 6%nat -> fetched w buf) /\
    (forall b, settles (w_main w) = Ok tt -> settles (w_erase w) = Ok tt ->
               fetched w b -> k = 6%nat /\ buf = b).
Proof.
  intros Ht Hf Hc. unfold clickProgram.
  unfold bind at 1, get at 1. rewrite Ht.
  unfold bind at 1, get at 1. rewrite Hf. cbn [negb].
  unfold bind at 1, call at 1. rewrite Hc. cbn [negb].
  unfold bind at 1, modify at 1. unfold bind at 1, modify at 1.
  set (s0 := set_progressLine None _).
  destruct (program_try_run w t (firmwareSelect_value st) s0)
    as (k & buf & s1 & E & X & Hk & H6 & Hall).
  exists k, buf, s1. split; [|split; [|auto]].
  - destruct X as [T C]. unfold same_controls in C.
    repeat match goal with H : _ /\ _ |- _ => destruct H end.
    subst s0. unfold extends, same_controls. norm_in_all. split.
    + rewrite T. now rewrite <- app_assoc.
    + repeat split; assumption.
  - unfold try_finally at 1. rewrite E. reflexivity.
Qed.

Definition is_erase (e : event) : bool :=
  match e with EraseFlash => true | _ => false end.
Definition is_fetch (e : event) : bool :=
  match e with Fetch _ => true | _ => false end.
Definition is_write (e : event) : bool :=
  match e with WriteFlash _ => true | _ => false end.

(** Every event of [l] that satisfies [q] comes after one that satisfies
    [p]; [seen] tells whether one has come already. *)
Fixpoint each_after (p q : event -> bool) (seen : bool) (l : list event) : bool :=
  match l with
  | [] => true
  | e :: l' => (if q e then seen else true) && each_after p q (seen || p e) l'
  end.

Lemma each_after_spec (p q : event -> bool) (l : list event) :
  forall seen,
    each_after p q seen l = true ->
    forall l1 e l2, l = l1 ++ e :: l2 -> q e = true ->
                    seen = true \/ existsb p l1 = true.
Proof.
  induction l as [|x l IH]; intros seen H l1 e l2 El Hq.
  - now destruct l1.
  - simpl in H. apply andb_true_iff in H. destruct H as [Hx Hl].
    destruct l1 as [|y l1]; simpl in El; injection El as E1 E2; subst.
    + rewrite Hq in Hx. now left.
    + destruct (IH _ Hl l1 e l2 eq_refl Hq) as [H|H].
      * apply orb_true_iff in H. simpl. destruct H as [-> | ->]; auto.
      * right. simpl. rewrite H. apply orb_true_r.
Qed.

(** The calls of a run of [clickProgram] that gets past its guards. *)
Lemma clickProgram_trace (st : session) (w : program_world) (t : handle) :
  transport st = Some t ->
  truthy (firmwareSelect_value st) = true ->
  w_confirm w = true ->
  exists k buf tail,
    trace (exec (clickProgram w) st)
    = trace st ++ Confirm :: firstn k (program_calls (firmwareSelect_value st) buf)
                  ++ TransportDisconnect :: tail /\
    (tail = [] \/ tail = [PortClose]) /\
    (2 <= k <= 6)%nat /\
    (k = 6%nat -> fetched w buf) /\
    (forall b, settles (w_main w) = Ok tt -> settles (w_erase w) = Ok tt ->
               fetched w b -> k = 6%nat /\ buf = b).
Proof.
  intros Ht Hf Hc.
  destruct (clickProgram_run st w t Ht Hf Hc)
    as (k & buf & s1 & [T C] & E & Hk & H6 & Hall).
  assert (Hs1 : transport s1 = Some t).
  { destruct C as (_ & C & _). cbn in C. congruence. }
  destruct (program_finally_run (w_program_teardown w) s1 t Hs1)
    as (o & s' & tail & Ef & Tf & _ & Hcase).
  exists k, buf, tail. unfold exec. rewrite E.
  unfold try_finally, ret. rewrite Ef.
  assert (Hsnd : snd (match o with
                      | Ret _ => (Ret tt, s')
                      | Throw e => (Throw e, s')
                      | Pending => (@Pending unit, s')
                      end) = s') by now destruct o.
  rewrite Hsnd. cbn in T. split; [|split; [|auto]].
  - rewrite Tf, T. rewrite <- !app_assoc. reflexivity.
  - destruct (w_disconnect (w_program_teardown w)).
    + destruct Hcase as [_ Hcase].
      destruct (is_some (port s1) && w_readable (w_program_teardown w));
        [right | left]; apply Hcase.
    + left. apply Hcase.
Qed.

(** C3: in a run of [clickProgram] with a transport, a firmware selected and
    the confirmation given, whatever the steps do: the erase call comes
    before the fetch, the fetch before the write, and every write is made
    with the binary string of the fetched bytes at address 0, flashSize
    keep, eraseAll false and compress true.  When the entry, the erase and
    the fetch succeed, the three calls are made. *)
Theorem program_sequence (st : session) (w : program_world) (t : handle) :
  transport st = Some t ->
  truthy (firmwareSelect_value st) = true ->
  w_confirm w = true ->
  exists evs,
    trace (exec (clickProgram w) st) = trace st ++ evs /\
    each_after is_erase is_fetch false evs = true /\
    each_after is_fetch is_write false evs = true /\
    (forall o, In (WriteFlash o) evs ->
       exists buf, fetched w buf /\
         o = {| fileArray := [(arrayBufferToBinaryString buf, 0)];
                flashSize := lit "keep";
                eraseAll := false;
                compress := true |}) /\
    (forall buf,
       settles (w_main w) = Ok tt -> settles (w_erase w) = Ok tt ->
       fetched w buf ->
       In EraseFlash evs /\ In (Fetch (firmwareSelect_value st)) evs /\
       In (WriteFlash (flash_options_of buf)) evs).
Proof.
  intros Ht Hf Hc.
  destruct (clickProgram_trace st w t Ht Hf Hc)
    as (k & buf & tail & T & Htail & Hk & H6 & Hall).
  eexists. split; [exact T|].
  assert (Hcases : (k = 2 \/ k = 3 \/ k = 4 \/ k = 5 \/ k = 6)%nat) by lia.
  split; [|split; [|split]].
  - destruct Hcases as [-> | [-> | [-> | [-> | ->]]]];
      destruct Htail as [-> | ->]; reflexivity.
  - destruct Hcases as [-> | [-> | [-> | [-> | ->]]]];
      destruct Htail as [-> | ->]; reflexivity.
  - intros o Ho.
    destruct Hcases as [-> | [-> | [-> | [-> | ->]]]];
      destruct Htail as [-> | ->]; cbn in Ho;
      repeat (destruct Ho as [Ho|Ho]; try discriminate Ho);
      try contradiction;
      exists buf; (split; [now apply H6 | now injection Ho as <-]).
  - intros b Hm He Hb. destruct (Hall b Hm He Hb) as [-> ->].
    cbn. intuition.
Qed.

Definition quiet_teardown : teardown_world :=
  {| w_cancel := Ok tt; w_disconnect := Ok tt; w_readable := true;
     w_close := Ok tt |}.

(** A session with a port, as [clickConnect] leaves it. *)
Definition connected_session : session :=
  exec (clickConnect {| w_requestPort := Ok 1%nat;
                        w_connect_teardown := quiet_teardown |}) loaded.

(** A world in which the firmware is four bytes and every step succeeds. *)
Definition good_program_world : program_world :=
  {| w_confirm := true;
     w_main := {| output := [TermWriteLine (lit "Connecting...")];
                  settles := Ok tt |};
     w_erase := {| output := []; settles := Ok tt |};
     w_fetch := Ok {| ok := true; arrayBuffer := Ok [xe9; x00; x02; xff] |};
     w_write := {| output := [TermWrite (lit "Writing at 0x0... (100%)")];
                   settles := Ok tt |};
     w_eraseStart := 1000; w_eraseEnd := 4000;
     w_programStart := 4100; w_programEnd := 9100;
     w_program_teardown := quiet_teardown |}.

Lemma program_sequence_witness :
  exists evs,
    trace (exec (clickProgram good_program_world) connected_session)
    = trace connected_session ++ evs /\
    each_after is_erase is_fetch false evs = true /\
    each_after is_fetch is_write false evs = true /\
    (forall o, In (WriteFlash o) evs ->
       exists buf, fetched good_program_world buf /\
         o = {| fileArray := [(arrayBufferToBinaryString buf, 0)];
                flashSize := lit "keep";
                eraseAll := false;
                compress := true |}) /\
    (forall buf,
       settles (w_main good_program_world) = Ok tt ->
       settles (w_erase good_program_world) = Ok tt ->
       fetched good_program_world buf ->
       In EraseFlash evs /\
       In (Fetch (firmwareSelect_value connected_session)) evs /\
       In (WriteFlash (flash_options_of buf)) evs).
Proof.
  apply (program_sequence connected_session good_program_world 1%nat);
    reflexivity.
Defined.


(** A world in which the erase fails. *)
Definition erase_fails_world : program_world :=
  {| w_confirm := true;
     w_main := {| output := []; settles := Ok tt |};
     w_erase := {| output := [];
                   settles := Err (Error (lit "Timeout")) |};
     w_fetch := Ok {| ok := true; arrayBuffer := Ok [] |};
     w_write := {| output := []; settles := Ok tt |};
     w_eraseStart := 0; w_eraseEnd := 0;
     w_programStart := 0; w_programEnd := 0;
     w_program_teardown := quiet_teardown |}.




(* ================================================================= *)
(** ** clickTerminal and stopMonitoring *)

Lemma candidate_run (line : jsstring) (st : session) :
  exists st', candidate line st = (Ret tt, st') /\ extends [] st st'.
Proof.
  unfold candidate, when. destruct (truthy _).
  - apply logLine_run.
  - exists st. split; [reflexivity | apply extends_refl].
Qed.

Lemma next_line_extends (i : nat) (st : session) :
  extends [] st (next_line i st).
Proof.
  unfold next_line.
  destruct (candidate_run (firstn i (buffer st)) st) as (st' & E & X).
  unfold exec. rewrite E. cbn [snd].
  apply (extends_trans [] [] _ st'); [exact X | apply extends_buffer].
Qed.

Lemma split_lines_run (st : session) :
  exists st', split_lines st = (Ret tt, st') /\ extends [] st st'.
Proof.
  remember (List.length (buffer st)) as n eqn:Hn.
  revert st Hn. induction n as [n IH] using lt_wf_ind. intros st Hn.
  rewrite split_lines_unfold.
  destruct (indexOf LF (buffer st)) as [i|] eqn:Hi.
  - pose proof (next_line_buffer_length i st Hi) as Hlen.
    destruct (IH (List.length (buffer (next_line i st))) ltac:(lia)
                 (next_line i st) eq_refl) as (st' & E & X).
    exists st'. split; [exact E|].
    apply (extends_trans [] [] _ (next_line i st));
      [apply next_line_extends | exact X].
  - exists st. split; [reflexivity | apply extends_refl].
Qed.

(** A turn of the reading loop that reads a chunk. *)
Lemma read_turn_chunk (value : list byte) (st : session) :
  exists st', read_turn (Chunk value) st = (Ret Continue, st') /\
              extends [ReaderRead] st st'.
Proof.
  unfold read_turn, try_catch.
  unfold bind at 1, call at 1. unfold bind at 1, modify at 1.
  unfold bind at 1.
  match goal with
  | |- context [split_lines ?s] =>
      destruct (split_lines_run s) as (st' & E & X); rewrite E
  end.
  exists st'. split; [reflexivity|].
  eapply (extends_trans [ReaderRead] []); [|exact X].
  eapply (extends_trans [ReaderRead] []); [apply extends_call|].
  split; [cbn; now rewrite app_nil_r | repeat split].
Qed.

(** The turn whose read fails with the loss of the device. *)
Lemma read_turn_lost (e : exn) (st : session) :
  includes (lit "device has been lost") (message e) = true ->
  read_turn (ReadFails e) st
  = (Ret Break,
     append_node (ErrorSpan (lit "Device lost, please reconnect and try again."))
       (set_trace (trace st ++ [ReaderRead]) st)).
Proof.
  intros H. unfold read_turn, try_catch.
  unfold bind at 1, call at 1. rewrite H. reflexivity.
Qed.

(** The turn whose read fails with another error throws it again. *)
Lemma read_turn_rethrows (e : exn) (st : session) :
  includes (lit "device has been lost") (message e) = false ->
  read_turn (ReadFails e) st
  = (Throw e, set_trace (trace st ++ [ReaderRead]) st).
Proof.
  intros H. unfold read_turn, try_catch.
  unfold bind at 1, call at 1. rewrite H. reflexivity.
Qed.

(** The turns that read chunks, while monitoring. *)
Lemma read_loop_chunks (chunks : list (list byte)) (rest : list read_result) :
  forall st,
    isMonitoring st = true ->
    exists st',
      read_loop (map Chunk chunks ++ rest) st = read_loop rest st' /\
      extends (repeat ReaderRead (List.length chunks)) st st'.
Proof.
  induction chunks as [|v chunks IH]; intros st Hm.
  - exists st. split; [reflexivity | apply extends_refl].
  - cbn [map app read_loop]. unfold bind at 1, get at 1. rewrite Hm.
    cbn [negb]. unfold bind at 1.
    destruct (read_turn_chunk v st) as (st1 & E & X). rewrite E.
    assert (Hm1 : isMonitoring st1 = true).
    { destruct X as (_ & _ & _ & _ & _ & H & _). congruence. }
    destruct (IH st1 Hm1) as (st' & E' & X').
    exists st'. split; [exact E'|].
    apply (extends_trans [ReaderRead] _ _ st1); assumption.
Qed.

(** The page when the terminal has started: the state in which
    [clickTerminal] enters its reading loop. *)
Definition monitoring_started (st : session) : session :=
  set_reader true
    (set_trace (trace st ++ [Sleep 2000; PortOpen TERM_BAUD_RATE; GetReader])
       (set_buffer []
          (set_log []
             (set_next_node (S (S (next_node st)))
                (set_butTerminal_color (lit "#e74c3c")
                   (set_butTerminal_text (lit "Stop")
                      (set_isMonitoring true st))))))).

(** Two sessions with the same variables, document and trace are equal. *)
Lemma session_ext (a b : session) :
  device a = device b -> transport a = transport b ->
  esploader a = esploader b -> port a = port b -> reader a = reader b ->
  isMonitoring a = isMonitoring b -> buffer a = buffer b ->
  progressLine a = progressLine b -> log a = log b ->
  next_node a = next_node b -> butConnect_text a = butConnect_text b ->
  butProgram_disabled a = butProgram_disabled b ->
  butTerminal_disabled a = butTerminal_disabled b ->
  butTerminal_text a = butTerminal_text b ->
  butTerminal_color a = butTerminal_color b ->
  firmwareSelect_value a = firmwareSelect_value b ->
  trace a = trace b ->
  a = b.
Proof. destruct a, b. cbn. intros. subst. reflexivity. Qed.

Lemma terminal_try_start (w : terminal_world) (st : session) :
  w_open w = Ok tt ->
  w_getReader w = Ok tt ->
  terminal_try w st = read_loop (w_reads w) (monitoring_started st).
Proof.
  intros Ho Hg. unfold terminal_try. rewrite Ho, Hg.
  rewrite bind_logLine_plain by (vm_compute; reflexivity).
  rewrite !bind_call_ok.
  rewrite bind_logLine_plain by (vm_compute; reflexivity).
  rewrite !bind_modify. rewrite bind_call_ok. rewrite bind_modify.
  f_equal. apply session_ext; try reflexivity.
  cbn [trace set_reader set_trace]. cbn [trace set_buffer set_log
    set_butTerminal_color set_butTerminal_text set_isMonitoring append_node
    set_next_node set_trace].
  now rewrite <- !app_assoc.
Qed.

(** The Connected state: a port is held, nothing is monitoring, the
    connect control reads Disconnect and the program and terminal controls
    are enabled. *)
Definition connected_state (st : session) : Prop :=
  port st <> None /\ isMonitoring st = false /\
  butConnect_text st = lit "Disconnect" /\
  butProgram_disabled st = false /\ butTerminal_disabled st = false.


Definition device_lost_notice : entry :=
  ErrorSpan (lit "Device lost, please reconnect and try again.").

(** The page when [reader.cancel()] has rejected in [stopMonitoring]: the
    flag and the terminal control are reset, the call is made, and nothing
    after it has run. *)
Definition teardown_cut_short (s : session) : session :=
  set_trace (trace s ++ [ReaderCancel])
    (set_butTerminal_color []
       (set_butTerminal_text (lit "Terminal") (set_isMonitoring false s))).

Lemma stopMonitoring_cancel_rejects (td : teardown_world) (s : session)
  (e : exn) :
  reader s = true ->
  w_cancel td = Err e ->
  stopMonitoring td s = (Throw e, teardown_cut_short s).
Proof.
  intros Hr Hc. unfold stopMonitoring. rewrite !bind_modify, bind_get.
  cbn [reader set_butTerminal_color set_butTerminal_text set_isMonitoring].
  rewrite Hr, Hc. cbn [when].
  unfold bind at 1. rewrite bind_call_err. reflexivity.
Qed.

(** What the log gets for a read that fails with [e]: the notice from the
    [catch] clause of the loop, or the line of the outer [catch] clause. *)
Definition read_failure_entry (e : exn) : entry :=
  if includes (lit "device has been lost") (message e)
  then device_lost_notice
  else ErrorSpan (lit "Terminal failed: " ++ message e).

(** A monitoring session whose read fails. A read that rejects has left the
    stream errored, and on an errored stream [reader.cancel()] rejects with
    the error the stream keeps (ReadableStreamCancel in the Streams
    standard): the world is one in which [w_cancel] is an error. The error
    is logged, [stopMonitoring] is entered from the [finally] block, and the
    rejection of [reader.cancel()] ends it there. *)
Lemma read_failure_run (st : session) (w : terminal_world)
  (chunks : list (list byte)) (e : exn) (later : list read_result)
  (e' : exn) :
  isMonitoring st = false ->
  is_some (port st) = true ->
  w_open w = Ok tt ->
  w_getReader w = Ok tt ->
  w_reads w = map Chunk chunks ++ ReadFails e :: later ->
  w_cancel (w_terminal_teardown w) = Err e' ->
  exists s1,
    extends (repeat ReaderRead (List.length chunks)) (monitoring_started st) s1 /\
    clickTerminal w st
    = (Throw e',
       teardown_cut_short
         (append_node (read_failure_entry e)
            (set_trace (trace s1 ++ [ReaderRead]) s1))).
Proof.
  intros Hm Hp Ho Hg Hr Hc.
  destruct (read_loop_chunks chunks (ReadFails e :: later)
              (monitoring_started st) eq_refl) as (s1 & E1 & X).
  exists s1. split; [exact X|].
  destruct X as [T C].
  assert (Hs1 : isMonitoring s1 = true /\ reader s1 = true).
  { unfold same_controls in C.
    repeat match goal with H : _ /\ _ |- _ => destruct H end.
    split; assumption. }
  destruct Hs1 as (Hm1 & Hr1).
  set (s2 := append_node (read_failure_entry e)
               (set_trace (trace s1 ++ [ReaderRead]) s1)).
  assert (Etry : try_catch (terminal_try w)
                   (fun e => logError (lit "Terminal failed: " ++ message e)) st
                 = (Ret tt, s2)).
  { unfold s2, read_failure_entry.
    destruct (includes (lit "device has been lost") (message e)) eqn:He.
    - apply try_catch_ret.
      rewrite (terminal_try_start w st Ho Hg), Hr, E1.
      cbn [read_loop]. rewrite bind_get, Hm1. cbn [negb].
      rewrite (bind_ret_eq _ _ Break _ _ (read_turn_lost e s1 He)).
      reflexivity.
    - rewrite (try_catch_throw _ _ e st (set_trace (trace s1 ++ [ReaderRead]) s1));
        [reflexivity|].
      rewrite (terminal_try_start w st Ho Hg), Hr, E1.
      cbn [read_loop]. rewrite bind_get, Hm1. cbn [negb].
      apply bind_throw_eq. now apply read_turn_rethrows. }
  unfold clickTerminal. rewrite bind_get, Hm. rewrite bind_get, Hp.
  cbn [negb].
  apply (try_finally_throws _ _ tt e' st s2 _ Etry).
  rewrite bind_get. change (isMonitoring s2) with (isMonitoring s1).
  rewrite Hm1. cbn [when].
  now apply stopMonitoring_cancel_rejects.
Qed.

(** C1, at the code: when a read fails with a message that holds
    [device has been lost] while the terminal is monitoring, the [catch]
    clause of the loop logs the notice and leaves the loop without throwing
    the error again, and the [finally] block calls [stopMonitoring]. The
    failed read has left the stream errored, so [reader.cancel()] rejects
    there: that error leaves [clickTerminal], and nothing of
    [stopMonitoring] after the call runs. The notice is the last entry of
    the log ([Terminal stopped.] is not logged), the monitoring flag is
    cleared and the terminal control reads Terminal again, the reader is
    still set, the port, the device and the transport are as they were, the
    controls are not toggled, and [reader.cancel()] is the last call made
    (the port is not closed): a page in the Connected state is still in
    it, but the handler has thrown. *)
Theorem device_lost_error_leaves_handler (st : session) (w : terminal_world)
  (chunks : list (list byte)) (e : exn) (later : list read_result)
  (e' : exn) :
  isMonitoring st = false ->
  is_some (port st) = true ->
  w_open w = Ok tt ->
  w_getReader w = Ok tt ->
  w_reads w = map Chunk chunks ++ ReadFails e :: later ->
  includes (lit "device has been lost") (message e) = true ->
  w_cancel (w_terminal_teardown w) = Err e' ->
  let st' := exec (clickTerminal w) st in
  fst (clickTerminal w st) = Throw e' /\
  (exists older n, log st' = older ++ [(n, device_lost_notice)]) /\
  isMonitoring st' = false /\
  butTerminal_text st' = lit "Terminal" /\
  reader st' = true /\
  port st' = port st /\ device st' = device st /\
  transport st' = transport st /\
  butConnect_text st' = butConnect_text st /\
  butProgram_disabled st' = butProgram_disabled st /\
  butTerminal_disabled st' = butTerminal_disabled st /\
  trace st'
  = trace st ++ [Sleep 2000; PortOpen TERM_BAUD_RATE; GetReader]
    ++ repeat ReaderRead (List.length chunks) ++ [ReaderRead; ReaderCancel] /\
  (connected_state st -> connected_state st').
Proof.
  intros Hm Hp Ho Hg Hr He Hc st'.
  destruct (read_failure_run st w chunks e later e' Hm Hp Ho Hg Hr Hc)
    as (s1 & [T C] & Erun).
  subst st'. unfold exec. rewrite Erun. cbn [fst snd].
  unfold read_failure_entry. rewrite He.
  unfold same_controls in C.
  destruct C as (C1 & C2 & C3 & C4 & C5 & C6 & C7 & C8 & C9 & C10 & C11).
  unfold teardown_cut_short.
  cbn [log isMonitoring butTerminal_text reader port device transport
       butConnect_text butProgram_disabled butTerminal_disabled trace
       set_trace set_butTerminal_color set_butTerminal_text set_isMonitoring
       append_node set_next_node set_log].
  cbn [monitoring_started device transport port reader butConnect_text
       butProgram_disabled butTerminal_disabled trace set_reader set_trace
       set_buffer set_log set_next_node set_butTerminal_color
       set_butTerminal_text set_isMonitoring] in C1, C2, C3, C4, C6, C7, C8, T.
  split; [reflexivity|]. split; [now exists (log s1), (next_node s1)|].
  split; [reflexivity|]. split; [reflexivity|].
  split; [exact C4|]. split; [exact C3|]. split; [exact C1|].
  split; [exact C2|]. split; [exact C6|]. split; [exact C7|].
  split; [exact C8|]. split.
  - rewrite T. now rewrite <- !app_assoc.
  - intros (K1 & K2 & K3 & K4 & K5). unfold connected_state.
    cbn [port isMonitoring butConnect_text butProgram_disabled
         butTerminal_disabled set_trace set_butTerminal_color
         set_butTerminal_text set_isMonitoring append_node set_next_node
         set_log].
    rewrite C3, C6, C7, C8. repeat split; assumption.
Qed.

(** The release calls on a stream that a failed read has left errored with
    [e]: [reader.cancel()] rejects with [e]. *)
Definition errored_teardown (e : exn) : teardown_world :=
  {| w_cancel := Err e; w_disconnect := Ok tt; w_readable := true;
     w_close := Ok tt |}.

Definition device_lost : exn :=
  Error (lit "NetworkError: The device has been lost.").

(** A chunk is read, then the device is unplugged. *)
Definition lost_world : terminal_world :=
  {| w_open := Ok tt; w_getReader := Ok tt;
     w_reads := [Chunk (list_byte_of_string "ab"); ReadFails device_lost];
     w_terminal_teardown := errored_teardown device_lost |}.

Lemma device_lost_error_leaves_handler_witness :
  fst (clickTerminal lost_world connected_session) = Throw device_lost /\
  (exists older n,
     log (exec (clickTerminal lost_world) connected_session)
     = older ++ [(n, device_lost_notice)]) /\
  reader (exec (clickTerminal lost_world) connected_session) = true /\
  port (exec (clickTerminal lost_world) connected_session)
  = port connected_session /\
  connected_state (exec (clickTerminal lost_world) connected_session).
Proof.
  pose proof (device_lost_error_leaves_handler connected_session lost_world
                [list_byte_of_string "ab"] device_lost [] device_lost
                eq_refl eq_refl eq_refl eq_refl eq_refl eq_refl eq_refl)
    as H.
  cbv zeta in H.
  destruct H as (H1 & H2 & _ & _ & H3 & H4 & _ & _ & _ & _ & _ & _ & H5).
  split; [exact H1|]. split; [exact H2|]. split; [exact H3|].
  split; [exact H4|].
  apply H5. repeat split; try reflexivity. discriminate.
Defined.

(* ================================================================= *)
(** ** cleanSerialOutput on lines made of text and escape sequences *)

(** A part of a line: a character of text, a CSI sequence with its
    parameters and final letter, or a title sequence ended by BEL or by
    ESC backslash. *)
Inductive piece : Type :=
| Text (c : Z)
| Csi (params : list Z) (final : Z)
| OscBel (title : jsstring)
| OscSt (title : jsstring).

Definition osc_opener : jsstring := [0x1B; 0x5D; 0x30; 0x3B].

Definition render (p : piece) : jsstring :=
  match p with
  | Text c => [c]
  | Csi params final => [0x1B; 0x5B] ++ params ++ [final]
  | OscBel title => osc_opener ++ title ++ [0x07]
  | OscSt title => osc_opener ++ title ++ [0x1B; 0x5C]
  end.

Definition render_line (l : list piece) : jsstring := flat_map render l.

(** The text of a line. *)
Definition visible (l : list piece) : jsstring :=
  flat_map (fun p => match p with Text c => [c] | _ => [] end) l.

(** A character of a title: no control character and no line terminator. *)
Definition title_char (c : Z) : bool := negb (control c) && dot c.

Definition well_formed (p : piece) : bool :=
  match p with
  | Text c => negb (control c)
  | Csi params final => forallb csi_param params && letter final
  | OscBel title => forallb title_char title
  | OscSt title =>
      forallb (fun c => title_char c && negb (c =? 0x5C)) title
  end.

Definition is_osc_bel (p : piece) : bool :=
  match p with OscBel _ => true | _ => false end.

(** No title sequence ended by BEL comes after one ended by ESC backslash. *)
Fixpoint st_last (l : list piece) : bool :=
  match l with
  | [] => true
  | OscSt _ :: l' => forallb (fun p => negb (is_osc_bel p)) l'
  | _ :: l' => st_last l'
  end.

Section ReplaceBlocks.

Variable r : regex.

Lemma replace_from_skip (m rest : jsstring) :
  replace_from r [] (List.length m) (m ++ rest) = replace_from r [] O rest.
Proof.
  induction m as [|c m IH]; cbn [List.length app].
  - reflexivity.
  - cbn [replace_from]. exact IH.
Qed.

(** A match at the head of the string is dropped. *)
Lemma replace_all_dropped (c : Z) (m rest : jsstring) :
  run r (c :: m ++ rest) (fun s => Some s) = Some rest ->
  replace_all r [] (c :: m ++ rest) = replace_all r [] rest.
Proof.
  intros H. unfold replace_all. cbn [replace_from]. unfold match_at.
  rewrite H.
  replace (List.length (c :: m ++ rest) - List.length rest)%nat
    with (S (List.length m))
    by (cbn [List.length]; rewrite length_app; lia).
  cbn [app]. apply replace_from_skip.
Qed.

(** A character where the regex does not match is kept. *)
Lemma replace_all_kept (c : Z) (rest : jsstring) :
  match_at r (c :: rest) = None ->
  replace_all r [] (c :: rest) = c :: replace_all r [] rest.
Proof.
  intros H. unfold replace_all. cbn [replace_from]. now rewrite H.
Qed.

End ReplaceBlocks.

(** The regexes of the escape sequences begin with ESC. *)
Lemma chars_first (c : Z) (l : list Z) (r : regex) (x : Z) (s : jsstring) :
  x <> c -> match_at (chars (c :: l) r) (x :: s) = None.
Proof. intros H. cbn [chars]. now apply match_at_first_char. Qed.

Lemma chars_second (c1 c2 : Z) (l : list Z) (r : regex) (y : Z) (s : jsstring) :
  y <> c2 -> match_at (chars (c1 :: c2 :: l) r) (c1 :: y :: s) = None.
Proof.
  intros H. unfold match_at. cbn [chars run]. rewrite Z.eqb_refl.
  destruct (Z.eqb_spec y c2); [contradiction | reflexivity].
Qed.

Lemma chars_at_end (c : Z) (l : list Z) (r : regex) :
  match_at (chars (c :: l) r) [] = None.
Proof. reflexivity. Qed.

(** Characters other than the first of the regex are kept. *)
Lemma replace_all_kept_chars (c : Z) (l : list Z) (r : regex)
  (m rest : jsstring) :
  ~ In c m ->
  replace_all (chars (c :: l) r) [] (m ++ rest)
  = m ++ replace_all (chars (c :: l) r) [] rest.
Proof.
  induction m as [|x m IH]; intros H; [reflexivity|].
  cbn [app]. rewrite replace_all_kept.
  - f_equal. apply IH. intros Hin. apply H. now right.
  - apply chars_first. intros ->. apply H. now left.
Qed.

(** The greedy star takes all the characters of the class when what
    follows is outside the class and lets the rest of the regex match. *)
Lemma star_greedy_all (p : Z -> bool) (k : cont) (ps : list Z) (f : Z)
  (rest r : jsstring) :
  forallb p ps = true -> p f = false -> k (f :: rest) = Some r ->
  star_greedy p (ps ++ f :: rest) k = Some r.
Proof.
  intros Hps Hf Hk. induction ps as [|c ps IH]; cbn [app star_greedy].
  - now rewrite Hf.
  - cbn [forallb] in Hps. apply andb_true_iff in Hps. destruct Hps as [Hc Hps].
    rewrite Hc. now rewrite (IH Hps).
Qed.

(** The lazy star stops at the first character the rest of the regex
    matches. *)
Lemma star_lazy_stop (p : Z -> bool) (stop : Z) (k : cont) (t rest r : jsstring) :
  forallb (fun c => p c && negb (c =? stop)) t = true ->
  k rest = Some r ->
  star_lazy p (t ++ stop :: rest) (fun s => run (Chr stop) s k) = Some r.
Proof.
  intros Ht Hk. induction t as [|c t IH]; cbn [app].
  - destruct rest; cbn [star_lazy run]; rewrite Z.eqb_refl; now rewrite Hk.
  - cbn [forallb] in Ht. apply andb_true_iff in Ht. destruct Ht as [Hc Ht].
    apply andb_true_iff in Hc. destruct Hc as [Hp Hc].
    apply negb_true_iff in Hc.
    cbn [star_lazy run]. rewrite Hc, Hp. now apply IH.
Qed.

(** Where the stop character is nowhere, the lazy star finds no match. *)
Lemma star_lazy_no_stop (p : Z -> bool) (stop : Z) (k : cont) (s : jsstring) :
  ~ In stop s ->
  star_lazy p s (fun s' => run (Chr stop) s' k) = None.
Proof.
  induction s as [|c s IH]; intros H; [reflexivity|].
  cbn [star_lazy run].
  destruct (Z.eqb_spec c stop) as [->|_]; [exfalso; apply H; now left|].
  destruct (p c); [|reflexivity]. apply IH. intros Hin. apply H. now right.
Qed.

Lemma run_chars_no_stop (l : list Z) (p : Z -> bool) (stop : Z) (k : cont) :
  forall s, ~ In stop s ->
            run (chars l (Seq (StarLazy p) (Chr stop))) s k = None.
Proof.
  induction l as [|x l IH]; intros s H; cbn [chars].
  - now apply star_lazy_no_stop.
  - destruct s as [|y s]; [reflexivity|].
    change (run (Seq (Chr x) (chars l (Seq (StarLazy p) (Chr stop)))) (y :: s) k)
      with (if y =? x then run (chars l (Seq (StarLazy p) (Chr stop))) s k
            else None).
    destruct (y =? x); [|reflexivity].
    apply IH. intros Hin. apply H. now right.
Qed.

Lemma osc_bel_no_bel (s : jsstring) :
  ~ In 0x07 s -> match_at re_osc_bel s = None.
Proof.
  intros H. unfold match_at, re_osc_bel. now rewrite run_chars_no_stop.
Qed.

(** The three regexes where a sequence stands. *)
Lemma letter_not_param (c : Z) : letter c = true -> csi_param c = false.
Proof.
  unfold letter, csi_param, range. intros H.
  apply orb_true_iff in H.
  apply orb_false_iff. split; [apply andb_false_iff | apply Z.eqb_neq];
    destruct H as [H|H]; apply andb_true_iff in H; destruct H as [H1 H2];
    rewrite ?Z.leb_gt; apply Z.leb_le in H1, H2; lia.
Qed.

Lemma csi_matches (params : list Z) (final : Z) (rest : jsstring) :
  forallb csi_param params = true -> letter final = true ->
  run re_csi ([0x1B; 0x5B] ++ params ++ final :: rest) (fun s => Some s)
  = Some rest.
Proof.
  intros Hp Hf. unfold re_csi. cbn [chars app].
  change (star_greedy csi_param (params ++ final :: rest)
            (fun s => run (Cls letter) s (fun s' => Some s')) = Some rest).
  apply star_greedy_all; [assumption | now apply letter_not_param|].
  cbn [run]. now rewrite Hf.
Qed.

Lemma osc_bel_matches (title rest : jsstring) :
  forallb title_char title = true ->
  run re_osc_bel (osc_opener ++ title ++ 0x07 :: rest) (fun s => Some s)
  = Some rest.
Proof.
  intros Ht. unfold re_osc_bel, osc_opener. cbn [chars app].
  change (star_lazy dot (title ++ 0x07 :: rest)
            (fun s => run (Chr 0x07) s (fun s' => Some s')) = Some rest).
  apply star_lazy_stop; [|reflexivity].
  rewrite forallb_forall in *. intros c Hc. specialize (Ht c Hc).
  unfold title_char in Ht. apply andb_true_iff in Ht. destruct Ht as [H1 H2].
  rewrite H2. cbn [andb]. apply negb_true_iff. apply Z.eqb_neq. intros ->.
  discriminate H1.
Qed.

Lemma osc_st_matches (title rest : jsstring) :
  forallb (fun c => title_char c && negb (c =? 0x5C)) title = true ->
  run re_osc_backslash (osc_opener ++ title ++ 0x1B :: 0x5C :: rest)
      (fun s => Some s)
  = Some rest.
Proof.
  intros Ht. unfold re_osc_backslash, osc_opener. cbn [chars app].
  change (star_lazy dot (title ++ 0x1B :: 0x5C :: rest)
            (fun s => run (Chr 0x5C) s (fun s' => Some s')) = Some rest).
  replace (title ++ 0x1B :: 0x5C :: rest)
    with ((title ++ [0x1B]) ++ 0x5C :: rest) by now rewrite <- app_assoc.
  apply star_lazy_stop; [|reflexivity].
  rewrite forallb_app. apply andb_true_iff. split; [|reflexivity].
  rewrite forallb_forall in *. intros c Hc. specialize (Ht c Hc).
  apply andb_true_iff in Ht. destruct Ht as [H1 H2].
  unfold title_char in H1. apply andb_true_iff in H1. destruct H1 as [_ H1].
  now rewrite H1, H2.
Qed.

Definition is_csi (p : piece) : bool :=
  match p with Csi _ _ => true | _ => false end.
Definition is_osc_st (p : piece) : bool :=
  match p with OscSt _ => true | _ => false end.

Definition without (kind : piece -> bool) (l : list piece) : list piece :=
  filter (fun p => negb (kind p)) l.

Lemma not_control_neq (c x : Z) :
  negb (control c) = true -> control x = true -> c <> x.
Proof. intros H Hx ->. rewrite Hx in H. discriminate. Qed.

Lemma title_no_control (f : Z -> bool) (title : jsstring) (x : Z) :
  (forall c, f c = true -> negb (control c) = true) ->
  forallb f title = true -> control x = true -> ~ In x title.
Proof.
  intros Hf Ht Hx Hin. rewrite forallb_forall in Ht.
  apply (not_control_neq x x); auto.
Qed.

Lemma title_char_no_control (c : Z) :
  title_char c = true -> negb (control c) = true.
Proof. unfold title_char. intros H. now apply andb_true_iff in H. Qed.

Lemma st_title_char_no_control (c : Z) :
  title_char c && negb (c =? 0x5C) = true -> negb (control c) = true.
Proof.
  intros H. apply andb_true_iff in H. now apply title_char_no_control.
Qed.

(** The first pass removes the CSI sequences and nothing else. *)
Lemma strip_csi_line (l : list piece) :
  forallb well_formed l = true ->
  strip_csi (render_line l) = render_line (without is_csi l).
Proof.
  unfold strip_csi, re_csi.
  induction l as [|p l IH]; intros Hwf; [reflexivity|].
  cbn [forallb] in Hwf. apply andb_true_iff in Hwf. destruct Hwf as [Hp Hl].
  specialize (IH Hl).
  unfold render_line, without in *. cbn [flat_map filter].
  destruct p as [c|params final|title|title]; cbn [is_csi negb flat_map render well_formed] in *.
  - rewrite replace_all_kept_chars.
    + now rewrite IH.
    + intros [->|[]]. discriminate Hp.
  - apply andb_true_iff in Hp. destruct Hp as [Hps Hf].
    rewrite <- IH. cbn [app].
    apply (replace_all_dropped _ 0x1B (0x5B :: params ++ [final])).
    cbn [app]. rewrite <- app_assoc. now apply csi_matches.
  - unfold osc_opener. cbn [app].
    rewrite replace_all_kept by (now apply chars_second).
    change (0x5D :: 0x30 :: 0x3B :: (title ++ [0x07]) ++ flat_map render l)
      with (([0x5D; 0x30; 0x3B] ++ title ++ [0x07]) ++ flat_map render l).
    rewrite replace_all_kept_chars.
    + now rewrite IH.
    + rewrite !in_app_iff. intros [H|[H|H]].
      * cbn in H. intuition discriminate.
      * revert H. now apply (title_no_control title_char);
          [apply title_char_no_control | |].
      * cbn in H. intuition discriminate.
  - unfold osc_opener. cbn [app].
    rewrite replace_all_kept by (now apply chars_second).
    replace (0x5D :: 0x30 :: 0x3B :: (title ++ [0x1B; 0x5C]) ++ flat_map render l)
      with (([0x5D; 0x30; 0x3B] ++ title) ++ 0x1B :: 0x5C :: flat_map render l)
      by (cbn [app]; now rewrite <- app_assoc).
    rewrite replace_all_kept_chars.
    + rewrite replace_all_kept by (now apply chars_second).
      rewrite replace_all_kept by (apply chars_first; discriminate).
      rewrite IH. cbn [app]. now rewrite <- !app_assoc.
    + rewrite !in_app_iff. intros [H|H].
      * cbn in H. intuition discriminate.
      * revert H. now apply (title_no_control _ title _ st_title_char_no_control).
Qed.

(** A line without a title sequence ended by BEL holds no BEL. *)
Lemma render_line_no_bel (l : list piece) :
  forallb well_formed l = true ->
  forallb (fun p => negb (is_osc_bel p)) l = true ->
  ~ In 0x07 (render_line l).
Proof.
  unfold render_line.
  induction l as [|p l IH]; intros Hwf Hno; [intros []|].
  cbn [forallb] in Hwf, Hno.
  apply andb_true_iff in Hwf. destruct Hwf as [Hp Hl].
  apply andb_true_iff in Hno. destruct Hno as [Hb Hno].
  cbn [flat_map]. rewrite in_app_iff. intros [H|H]; [|now apply IH].
  destruct p as [c|params final|title|title];
    cbn [render well_formed is_osc_bel negb] in *; try discriminate.
  - destruct H as [->|[]]. discriminate Hp.
  - apply andb_true_iff in Hp. destruct Hp as [Hps Hf].
    cbn [app] in H. destruct H as [H|[H|H]]; try discriminate.
    rewrite in_app_iff in H. destruct H as [H|[->|[]]].
    + rewrite forallb_forall in Hps. apply Hps in H. discriminate H.
    + discriminate Hf.
  - unfold osc_opener in H. cbn [app] in H.
    destruct H as [H|[H|[H|[H|H]]]]; try discriminate.
    rewrite in_app_iff in H. destruct H as [H|H].
    + revert H. now apply (title_no_control _ title _ st_title_char_no_control).
    + cbn in H. intuition discriminate.
Qed.

(** The second pass removes the title sequences ended by BEL. *)
Lemma strip_osc_bel_line (l : list piece) :
  forallb well_formed l = true ->
  forallb (fun p => negb (is_csi p)) l = true ->
  st_last l = true ->
  strip_osc_bel (render_line l) = render_line (without is_osc_bel l).
Proof.
  unfold strip_osc_bel.
  induction l as [|p l IH]; intros Hwf Hcsi Hst; [reflexivity|].
  destruct p as [c|params final|title|title].
  - cbn [forallb well_formed is_csi st_last] in *.
    apply andb_true_iff in Hwf. destruct Hwf as [Hp Hl].
    unfold render_line, without in *. cbn [flat_map filter is_osc_bel negb render].
    unfold re_osc_bel. rewrite replace_all_kept_chars.
    + fold re_osc_bel. now rewrite IH.
    + intros [->|[]]. discriminate Hp.
  - discriminate Hcsi.
  - cbn [forallb well_formed is_csi st_last] in *.
    apply andb_true_iff in Hwf. destruct Hwf as [Hp Hl].
    unfold render_line, without in *. cbn [flat_map filter is_osc_bel negb render].
    rewrite <- IH by assumption.
    unfold osc_opener. cbn [app].
    change (0x5D :: 0x30 :: 0x3B :: (title ++ [0x07]) ++ flat_map render l)
      with ((0x5D :: 0x30 :: 0x3B :: title ++ [0x07]) ++ flat_map render l).
    apply replace_all_dropped. cbn [app]. rewrite <- app_assoc.
    now apply (osc_bel_matches title).
  - assert (Hno : forallb (fun p => negb (is_osc_bel p)) (OscSt title :: l) = true)
      by exact Hst.
    unfold without. rewrite forallb_filter_id by exact Hno.
    apply replace_all_no_match; [reflexivity|].
    intros s1 x s2 E. apply osc_bel_no_bel.
    intros Hin. apply (render_line_no_bel _ Hwf Hno).
    rewrite E. rewrite in_app_iff. now right.
Qed.

(** The third pass removes the title sequences ended by ESC backslash. *)
Lemma strip_osc_backslash_line (l : list piece) :
  forallb well_formed l = true ->
  forallb (fun p => negb (is_csi p)) l = true ->
  forallb (fun p => negb (is_osc_bel p)) l = true ->
  strip_osc_backslash (render_line l) = render_line (without is_osc_st l).
Proof.
  unfold strip_osc_backslash.
  induction l as [|p l IH]; intros Hwf Hcsi Hbel; [reflexivity|].
  cbn [forallb] in Hwf, Hcsi, Hbel.
  apply andb_true_iff in Hwf. destruct Hwf as [Hp Hl].
  apply andb_true_iff in Hcsi. destruct Hcsi as [Hc1 Hcsi].
  apply andb_true_iff in Hbel. destruct Hbel as [Hb1 Hbel].
  specialize (IH Hl Hcsi Hbel).
  unfold render_line, without in *.
  destruct p as [c|params final|title|title]; try discriminate;
    cbn [flat_map filter is_osc_st negb render well_formed] in *.
  - unfold re_osc_backslash. rewrite replace_all_kept_chars.
    + fold re_osc_backslash. now rewrite IH.
    + intros [->|[]]. discriminate Hp.
  - rewrite <- IH. unfold osc_opener. cbn [app].
    change (0x5D :: 0x30 :: 0x3B :: (title ++ [0x1B; 0x5C]) ++ flat_map render l)
      with ((0x5D :: 0x30 :: 0x3B :: title ++ [0x1B; 0x5C]) ++ flat_map render l).
    apply replace_all_dropped. cbn [app]. rewrite <- app_assoc.
    now apply (osc_st_matches title).
Qed.

Lemma forallb_without (f kind : piece -> bool) (l : list piece) :
  forallb f l = true -> forallb f (without kind l) = true.
Proof.
  intros H. rewrite forallb_forall in *. intros p Hp.
  apply filter_In in Hp. now apply H.
Qed.

Lemma without_none (kind : piece -> bool) (l : list piece) :
  forallb (fun p => negb (kind p)) (without kind l) = true.
Proof.
  apply forallb_forall. intros p Hp. now apply filter_In in Hp.
Qed.

Lemma st_last_without_csi (l : list piece) :
  st_last l = true -> st_last (without is_csi l) = true.
Proof.
  induction l as [|p l IH]; [reflexivity|].
  destruct p; cbn [st_last without filter is_csi negb]; auto.
  intros H. now apply forallb_without.
Qed.

Lemma visible_without (kind : piece -> bool) (l : list piece) :
  (forall c, kind (Text c) = false) ->
  visible (without kind l) = visible l.
Proof.
  intros Hk. unfold visible, without.
  induction l as [|p l IH]; [reflexivity|]. cbn [filter flat_map].
  destruct p; cbn [negb flat_map];
    try (rewrite Hk; cbn [negb flat_map]; now rewrite IH);
    destruct (kind _); cbn [negb flat_map]; now rewrite IH.
Qed.

Lemma render_text_only (l : list piece) :
  forallb (fun p => negb (is_csi p)) l = true ->
  forallb (fun p => negb (is_osc_bel p)) l = true ->
  forallb (fun p => negb (is_osc_st p)) l = true ->
  render_line l = visible l.
Proof.
  unfold render_line, visible.
  induction l as [|p l IH]; intros H1 H2 H3; [reflexivity|].
  cbn [forallb] in *.
  apply andb_true_iff in H1, H2, H3.
  destruct H1 as [A1 H1], H2 as [A2 H2], H3 as [A3 H3].
  destruct p; try discriminate. cbn [flat_map render]. now rewrite IH.
Qed.

Lemma visible_no_control (l : list piece) :
  forallb well_formed l = true -> no_control (visible l).
Proof.
  unfold no_control, visible. intros H. apply Forall_forall. intros c Hc.
  apply in_flat_map in Hc. destruct Hc as (p & Hp & Hc).
  rewrite forallb_forall in H. specialize (H p Hp).
  destruct p; try contradiction. destruct Hc as [<-|[]].
  now apply negb_true_iff in H.
Qed.

(** The last four passes leave a string without control characters. *)
Lemma last_passes_fixed (s : jsstring) :
  no_control s ->
  drop_cr (crlf_to_lf (strip_control (strip_osc_either s))) = s.
Proof.
  intros H.
  assert (Hesc : ~ In 0x1B s) by (apply no_control_not_in; [assumption | reflexivity]).
  assert (Hcr : ~ In 0x0D s) by (apply no_control_not_in; [assumption | reflexivity]).
  unfold strip_osc_either, re_osc_either. cbn [chars].
  rewrite (replace_all_first_char_absent 0x1B _ _ s) by assumption.
  unfold strip_control, re_control. rewrite replace_all_class.
  assert (Hf : filter (fun c => negb (control c)) s = s).
  { apply forallb_filter_id. apply forallb_forall. intros c Hc.
    unfold no_control in H. rewrite Forall_forall in H.
    now rewrite (H c Hc). }
  rewrite Hf. unfold crlf_to_lf, drop_cr, re_crlf, re_cr. cbn [chars].
  rewrite (replace_all_first_char_absent 0x0D _ _ s) by assumption.
  now apply replace_all_char_absent.
Qed.

(** C7, as the code has it: on a line made of printable text, CSI sequences
    (ESC [, digits and semicolons, a letter) and title sequences (ESC ] 0 ;
    and a title, ended by BEL or by ESC backslash), where the titles hold no
    control character and no line terminator, the titles ended by ESC
    backslash hold no backslash, and no sequence ended by BEL follows one
    ended by ESC backslash, cleaning leaves the text and nothing else. *)
Theorem cleanSerialOutput_strips_sequences (l : list piece) :
  forallb well_formed l = true ->
  st_last l = true ->
  cleanSerialOutput (render_line l) = visible l.
Proof.
  intros Hwf Hst. unfold cleanSerialOutput.
  rewrite strip_csi_line by assumption.
  rewrite strip_osc_bel_line;
    [|now apply forallb_without | apply without_none
     |now apply st_last_without_csi].
  rewrite strip_osc_backslash_line;
    [|now do 2 apply forallb_without
     |apply forallb_without, without_none | apply without_none].
  rewrite render_text_only;
    [|do 2 apply forallb_without; apply without_none
     |apply forallb_without, without_none | apply without_none].
  rewrite !visible_without by reflexivity.
  apply last_passes_fixed. now apply visible_no_control.
Qed.

(** A line with a colour sequence, a title ended by BEL, text, and a title
    ended by ESC backslash. *)
Definition mixed_line : list piece :=
  [Csi [0x33; 0x31] 0x6D; OscBel (lit "code.py"); Text 0x4F; Text 0x4B;
   Csi [] 0x4B; OscSt (lit "Done | 8.0.0"); Text 0x21].

Lemma cleanSerialOutput_strips_sequences_witness :
  cleanSerialOutput (render_line mixed_line) = lit "OK!".
Proof.
  apply (cleanSerialOutput_strips_sequences mixed_line); reflexivity.
Defined.

(** C7, as the specification has it, fails.  A title that holds a backslash
    and is ended by ESC backslash leaves the end of the title and the
    backslash of the terminator; and text between a title ended by ESC
    backslash and a later title ended by BEL is removed with them. *)
Lemma cleanSerialOutput_leaves_fragment :
  cleanSerialOutput (render_line [OscSt (lit "a" ++ [0x5C] ++ lit "b")])
  = lit "b" ++ [0x5C] /\
  visible [OscSt (lit "a" ++ [0x5C] ++ lit "b")] = [] /\
  cleanSerialOutput
    (render_line [OscSt (lit "a"); Text 0x58; OscBel (lit "b")]) = [] /\
  visible [OscSt (lit "a"); Text 0x58; OscBel (lit "b")] = lit "X".
Proof. repeat split; vm_compute; reflexivity. Qed.

(* ================================================================= *)
(** ** Chunks that split a character *)

(** C4 fails on the code.  The three bytes of [e acute, line feed] arrive
    in one chunk, or split after the first byte of the character: same
    bytes, same order.  Each chunk is decoded on its own, so the split
    character becomes two replacement characters, and the line logged is
    not the same. *)
Theorem split_character_changes_lines :
  List.concat [[xc3; xa9; x0a]] = List.concat [[xc3]; [xa9; x0a]] /\
  map snd (log (exec (read_loop [Chunk [xc3; xa9; x0a]])
                     (monitoring_started connected_session)))
  = [Line [0xE9]] /\
  map snd (log (exec (read_loop [Chunk [xc3]; Chunk [xa9; x0a]])
                     (monitoring_started connected_session)))
  = [Line [0xFFFD; 0xFFFD]].
Proof. repeat split; vm_compute; reflexivity. Qed.

(* ================================================================= *)
(** * Further properties *)

(* ================================================================= *)
(** ** The reading loop and the boundaries of the chunks *)

(** What a turn of the reading loop does with the text of a chunk: the
    text is added to the buffer and the inner loop runs. *)
Definition feed_text (text : jsstring) (st : session) : session :=
  exec split_lines (set_buffer (buffer st ++ text) st).

Lemma logLine_set_buffer (b text : jsstring) (st : session) :
  exec (logLine text) (set_buffer b st) = set_buffer b (exec (logLine text) st).
Proof.
  unfold exec, logLine. cbn [progressLine set_buffer].
  destruct (startsWith _ text || startsWith _ text); [|reflexivity].
  destruct (progressLine st) eqn:E; cbn; rewrite ?E; reflexivity.
Qed.

Lemma logLine_set_trace (tr : list event) (text : jsstring) (st : session) :
  exec (logLine text) (set_trace tr st) = set_trace tr (exec (logLine text) st).
Proof.
  unfold exec, logLine. cbn [progressLine set_trace].
  destruct (startsWith _ text || startsWith _ text); [|reflexivity].
  destruct (progressLine st) eqn:E; cbn; rewrite ?E; reflexivity.
Qed.

Lemma candidate_set_buffer (b line : jsstring) (st : session) :
  exec (candidate line) (set_buffer b st)
  = set_buffer b (exec (candidate line) st).
Proof.
  unfold candidate, when. destruct (truthy _); [|reflexivity].
  apply logLine_set_buffer.
Qed.

Lemma candidate_set_trace (tr : list event) (line : jsstring) (st : session) :
  exec (candidate line) (set_trace tr st)
  = set_trace tr (exec (candidate line) st).
Proof.
  unfold candidate, when. destruct (truthy _); [|reflexivity].
  apply logLine_set_trace.
Qed.

Lemma indexOf_app (c : Z) (s b : jsstring) (i : nat) :
  indexOf c s = Some i -> indexOf c (s ++ b) = Some i.
Proof.
  revert i. induction s as [|x s IH]; intros i; cbn [indexOf app];
    [discriminate|].
  destruct (x =? c); [auto|].
  destruct (indexOf c s) as [j|]; [|discriminate].
  now rewrite (IH j eq_refl).
Qed.

Lemma indexOf_lt (c : Z) (s : jsstring) :
  forall i, indexOf c s = Some i -> (i < List.length s)%nat.
Proof.
  induction s as [|x s IH]; intros i; cbn [indexOf List.length];
    [discriminate|].
  destruct (x =? c); [intros [= <-]; lia|].
  destruct (indexOf c s) as [j|]; [|discriminate].
  intros [= <-]. specialize (IH j eq_refl). lia.
Qed.

(** A turn of the inner loop does not look at what comes after the line
    feed it has found. *)
Lemma next_line_app (i : nat) (b : jsstring) (s : session) :
  indexOf LF (buffer s) = Some i ->
  next_line i (set_buffer (buffer s ++ b) s)
  = set_buffer (buffer (next_line i s) ++ b) (next_line i s).
Proof.
  intros Hi. pose proof (indexOf_lt _ _ _ Hi) as Hlt.
  unfold next_line. cbn [buffer set_buffer].
  rewrite firstn_app.
  replace (i - List.length (buffer s))%nat with O by lia.
  cbn [firstn]. rewrite app_nil_r.
  rewrite candidate_set_buffer. cbn [buffer set_buffer].
  rewrite candidate_buffer.
  rewrite skipn_app.
  replace (i + 1 - List.length (buffer s))%nat with O by lia.
  cbn [skipn]. reflexivity.
Qed.

Lemma next_line_set_trace (i : nat) (tr : list event) (s : session) :
  next_line i (set_trace tr s) = set_trace tr (next_line i s).
Proof.
  unfold next_line. cbn [buffer set_trace].
  rewrite candidate_set_trace. reflexivity.
Qed.

(** The lines the loop has taken from the buffer are the lines it takes
    when more text follows. *)
Lemma split_lines_app (b : jsstring) :
  forall s,
    exec split_lines (set_buffer (buffer (exec split_lines s) ++ b)
                                 (exec split_lines s))
    = exec split_lines (set_buffer (buffer s ++ b) s).
Proof.
  intros s. remember (List.length (buffer s)) as n eqn:Hn.
  revert s Hn. induction n as [n IH] using lt_wf_ind. intros s Hn.
  destruct (indexOf LF (buffer s)) as [i|] eqn:Hi.
  - assert (E1 : exec split_lines s = exec split_lines (next_line i s))
      by (unfold exec; now rewrite (split_lines_unfold s), Hi).
    assert (E2 : exec split_lines (set_buffer (buffer s ++ b) s)
                 = exec split_lines
                     (set_buffer (buffer (next_line i s) ++ b) (next_line i s))).
    { unfold exec. rewrite (split_lines_unfold (set_buffer (buffer s ++ b) s)).
      cbn [buffer set_buffer]. rewrite (indexOf_app _ _ b _ Hi).
      now rewrite (next_line_app i b s Hi). }
    rewrite E1, E2.
    pose proof (next_line_buffer_length i s Hi) as Hlen.
    apply (IH (List.length (buffer (next_line i s))) ltac:(lia)
              (next_line i s) eq_refl).
  - assert (E1 : exec split_lines s = s)
      by (unfold exec; now rewrite (split_lines_unfold s), Hi).
    now rewrite E1.
Qed.

Lemma split_lines_set_trace (tr : list event) :
  forall s,
    exec split_lines (set_trace tr s) = set_trace tr (exec split_lines s).
Proof.
  intros s. remember (List.length (buffer s)) as n eqn:Hn.
  revert s Hn. induction n as [n IH] using lt_wf_ind. intros s Hn.
  destruct (indexOf LF (buffer s)) as [i|] eqn:Hi.
  - assert (E1 : exec split_lines s = exec split_lines (next_line i s))
      by (unfold exec; now rewrite (split_lines_unfold s), Hi).
    assert (E2 : exec split_lines (set_trace tr s)
                 = exec split_lines (set_trace tr (next_line i s))).
    { unfold exec. rewrite (split_lines_unfold (set_trace tr s)).
      cbn [buffer set_trace]. rewrite Hi. now rewrite next_line_set_trace. }
    rewrite E1, E2.
    pose proof (next_line_buffer_length i s Hi) as Hlen.
    apply (IH (List.length (buffer (next_line i s))) ltac:(lia)
              (next_line i s) eq_refl).
  - unfold exec. rewrite (split_lines_unfold s), Hi.
    rewrite (split_lines_unfold (set_trace tr s)). cbn [buffer set_trace].
    now rewrite Hi.
Qed.

(** Text fed in two parts is text fed at once. *)
Lemma feed_text_app (a b : jsstring) (st : session) :
  feed_text b (feed_text a st) = feed_text (a ++ b) st.
Proof.
  unfold feed_text.
  rewrite (split_lines_app b (set_buffer (buffer st ++ a) st)).
  cbn [buffer set_buffer]. now rewrite <- app_assoc.
Qed.

Lemma feed_text_set_trace (tr : list event) (text : jsstring) (st : session) :
  feed_text text (set_trace tr st) = set_trace tr (feed_text text st).
Proof.
  unfold feed_text. cbn [buffer set_trace].
  apply (split_lines_set_trace tr (set_buffer (buffer st ++ text) st)).
Qed.

Lemma feed_text_nil (st : session) :
  indexOf LF (buffer st) = None -> feed_text [] st = st.
Proof.
  intros H. unfold feed_text, exec. rewrite split_lines_unfold.
  cbn [buffer set_buffer]. rewrite app_nil_r, H. cbn [snd].
  now destruct st.
Qed.

Lemma feed_text_no_line_feed (text : jsstring) (st : session) :
  indexOf LF (buffer (feed_text text st)) = None.
Proof. unfold feed_text. apply split_lines_returns. Qed.

Lemma read_turn_chunk_feed (value : list byte) (st : session) :
  read_turn (Chunk value) st
  = (Ret Continue,
     set_trace (trace st ++ [ReaderRead]) (feed_text (Utf8.decode value) st)).
Proof.
  rewrite <- feed_text_set_trace.
  unfold read_turn, try_catch.
  unfold bind at 1, call at 1. unfold bind at 1, modify at 1.
  unfold bind at 1.
  match goal with
  | |- context [split_lines ?s] =>
      destruct (split_lines_returns s) as [E _]; rewrite E
  end.
  reflexivity.
Qed.

(** The chunks read while monitoring: the state is the one the whole text
    gives, fed at once; the trace has one read for each chunk and the read
    that is pending. *)
Lemma read_loop_feed (chunks : list (list byte)) :
  forall st,
    isMonitoring st = true ->
    indexOf LF (buffer st) = None ->
    read_loop (map Chunk chunks) st
    = (Pending,
       set_trace (trace st ++ repeat ReaderRead (S (List.length chunks)))
         (feed_text (List.concat (map Utf8.decode chunks)) st)).
Proof.
  induction chunks as [|v chunks IH]; intros st Hm Hb.
  - cbn [map read_loop List.concat List.length repeat].
    rewrite bind_get, Hm. cbn [negb]. now rewrite feed_text_nil.
  - cbn [map read_loop List.concat List.length].
    rewrite bind_get, Hm. cbn [negb].
    rewrite (bind_ret_eq _ _ Continue _ _ (read_turn_chunk_feed v st)).
    rewrite IH.
    + rewrite feed_text_set_trace. rewrite feed_text_app.
      cbn [trace set_trace]. f_equal.
      change (repeat ReaderRead (S (S (List.length chunks))))
        with ([ReaderRead] ++ repeat ReaderRead (S (List.length chunks))).
      now rewrite app_assoc.
    + cbn [isMonitoring set_trace].
      destruct (split_lines_run (set_buffer (buffer st ++ Utf8.decode v) st))
        as (s' & E & X).
      unfold feed_text, exec. rewrite E. cbn [snd].
      destruct X as (_ & _ & _ & _ & _ & H & _). now rewrite H.
    + cbn [buffer set_trace]. apply feed_text_no_line_feed.
Qed.

(** X1: while monitoring, two sequences of chunks whose decoded texts make
    the same text when put end to end leave the same log pane and the same
    buffer: the lines logged do not depend on where the text is cut. *)
Theorem chunk_boundaries_of_text (st : session) (c1 c2 : list (list byte)) :
  isMonitoring st = true ->
  indexOf LF (buffer st) = None ->
  List.concat (map Utf8.decode c1) = List.concat (map Utf8.decode c2) ->
  log (exec (read_loop (map Chunk c1)) st)
  = log (exec (read_loop (map Chunk c2)) st) /\
  buffer (exec (read_loop (map Chunk c1)) st)
  = buffer (exec (read_loop (map Chunk c2)) st) /\
  progressLine (exec (read_loop (map Chunk c1)) st)
  = progressLine (exec (read_loop (map Chunk c2)) st).
Proof.
  intros Hm Hb Htext. unfold exec.
  rewrite !read_loop_feed by assumption. cbn [snd]. rewrite Htext.
  repeat split.
Qed.

Definition hi_chunks_1 : list (list byte) := [[x68; x69; x0a; x21]].
Definition hi_chunks_2 : list (list byte) := [[x68]; [x69; x0a]; []; [x21]].

Lemma chunk_boundaries_of_text_witness :
  log (exec (read_loop (map Chunk hi_chunks_1))
            (monitoring_started connected_session))
  = log (exec (read_loop (map Chunk hi_chunks_2))
              (monitoring_started connected_session)).
Proof.
  apply (chunk_boundaries_of_text (monitoring_started connected_session)
           hi_chunks_1 hi_chunks_2); reflexivity.
Defined.

(** Bytes below 0x80 decode to themselves. *)
Definition ascii_bytes (bytes : list byte) : Prop :=
  Forall (fun b => byte_val b < 0x80) bytes.

Lemma code_points_ascii (bytes : list byte) :
  ascii_bytes bytes ->
  Utf8.code_points Utf8.init bytes = map byte_val bytes.
Proof.
  induction 1 as [|b bytes Hb _ IH]; [reflexivity|].
  cbn [Utf8.code_points map]. unfold Utf8.step. cbn [Utf8.bytes_needed Utf8.init].
  cbn [Z.eqb]. unfold Utf8.lead.
  pose proof (byte_val_range b) as Hr.
  replace (range 0x00 0x7F (byte_val b)) with true
    by (unfold range; symmetry; apply andb_true_iff; split; apply Z.leb_le; lia).
  cbn [app]. now rewrite IH.
Qed.

Lemma decode_ascii (bytes : list byte) :
  ascii_bytes bytes -> Utf8.decode bytes = map byte_val bytes.
Proof.
  intros H. unfold Utf8.decode. rewrite (code_points_ascii bytes H).
  assert (Hsmall : Forall (fun c => 0 <= c < 0x80) (map byte_val bytes)).
  { apply Forall_forall. intros c Hc. apply in_map_iff in Hc.
    destruct Hc as (b & <- & Hb). unfold ascii_bytes in H.
    rewrite Forall_forall in H. specialize (H b Hb).
    pose proof (byte_val_range b). lia. }
  assert (Hbom : Utf8.drop_bom (map byte_val bytes) = map byte_val bytes).
  { destruct Hsmall as [|c l Hc _]; [reflexivity|]. cbn [Utf8.drop_bom].
    destruct (Z.eqb_spec c 0xFEFF); [lia | reflexivity]. }
  rewrite Hbom. clear Hbom. induction Hsmall as [|c l Hc _ IH]; [reflexivity|].
  cbn [flat_map]. rewrite IH. unfold Utf8.utf16.
  destruct (Z.ltb_spec c 0x10000); [reflexivity | lia].
Qed.

Lemma decode_ascii_chunks (chunks : list (list byte)) :
  Forall ascii_bytes chunks ->
  List.concat (map Utf8.decode chunks) = map byte_val (List.concat chunks).
Proof.
  induction 1 as [|c chunks Hc _ IH]; [reflexivity|].
  cbn [map List.concat]. rewrite map_app, IH. now rewrite decode_ascii.
Qed.

(** X2: for chunks of bytes below 0x80, two ways of cutting the same bytes
    into chunks leave the same log pane and the same buffer. *)
Theorem chunk_boundaries_of_ascii (st : session) (c1 c2 : list (list byte)) :
  isMonitoring st = true ->
  indexOf LF (buffer st) = None ->
  Forall ascii_bytes c1 ->
  Forall ascii_bytes c2 ->
  List.concat c1 = List.concat c2 ->
  log (exec (read_loop (map Chunk c1)) st)
  = log (exec (read_loop (map Chunk c2)) st) /\
  buffer (exec (read_loop (map Chunk c1)) st)
  = buffer (exec (read_loop (map Chunk c2)) st).
Proof.
  intros Hm Hb H1 H2 Hc. unfold exec.
  rewrite !read_loop_feed by assumption. cbn [snd].
  rewrite !decode_ascii_chunks by assumption. rewrite Hc. split; reflexivity.
Qed.

Lemma chunk_boundaries_of_ascii_witness :
  log (exec (read_loop (map Chunk hi_chunks_1))
            (monitoring_started connected_session))
  = log (exec (read_loop (map Chunk hi_chunks_2))
              (monitoring_started connected_session)).
Proof.
  apply (chunk_boundaries_of_ascii (monitoring_started connected_session)
           hi_chunks_1 hi_chunks_2); try reflexivity;
    repeat constructor.
Defined.

(** What the inner loop takes from the buffer is a run of whole lines. *)
Lemma split_lines_takes_lines :
  forall s, exists taken,
    buffer s = taken ++ buffer (exec split_lines s) /\
    (taken = [] \/ exists p, taken = p ++ [LF]).
Proof.
  intros s. remember (List.length (buffer s)) as n eqn:Hn.
  revert s Hn. induction n as [n IH] using lt_wf_ind. intros s Hn.
  destruct (indexOf LF (buffer s)) as [i|] eqn:Hi.
  - assert (E1 : exec split_lines s = exec split_lines (next_line i s))
      by (unfold exec; now rewrite (split_lines_unfold s), Hi).
    rewrite E1.
    pose proof (next_line_buffer_length i s Hi) as Hlen.
    destruct (IH (List.length (buffer (next_line i s))) ltac:(lia)
                 (next_line i s) eq_refl) as (taken & Ht & Hend).
    assert (Hb : buffer (next_line i s) = skipn (i + 1) (buffer s)).
    { unfold next_line. cbn [buffer set_buffer]. now rewrite candidate_buffer. }
    apply indexOf_Some in Hi. destruct Hi as [Hs _].
    exists ((firstn i (buffer s) ++ [LF]) ++ taken). split.
    + rewrite <- !app_assoc. rewrite <- Ht, Hb. exact Hs.
    + right. destruct Hend as [->|(p & ->)].
      * exists (firstn i (buffer s)). now rewrite app_nil_r.
      * exists ((firstn i (buffer s) ++ [LF]) ++ p). now rewrite <- !app_assoc.
  - assert (E1 : exec split_lines s = s)
      by (unfold exec; now rewrite (split_lines_unfold s), Hi).
    rewrite E1. exists []. split; [reflexivity | now left].
Qed.

(** X3: a turn of the reading loop that reads a chunk goes on to the next
    turn, and leaves in the buffer the text after the last line feed: the
    buffer and the decoded chunk are the lines taken, each ended by its line
    feed, followed by the new buffer, which holds no line feed. *)
Theorem chunk_turn_leaves_unfinished_line (value : list byte) (st : session) :
  fst (read_turn (Chunk value) st) = Ret Continue /\
  ~ In LF (buffer (exec (read_turn (Chunk value)) st)) /\
  exists taken,
    buffer st ++ Utf8.decode value
    = taken ++ buffer (exec (read_turn (Chunk value)) st) /\
    (taken = [] \/ exists p, taken = p ++ [LF]).
Proof.
  unfold exec. rewrite read_turn_chunk_feed. cbn [fst snd buffer set_trace].
  split; [reflexivity|]. split.
  - apply indexOf_None. apply feed_text_no_line_feed.
  - unfold feed_text.
    destruct (split_lines_takes_lines
                (set_buffer (buffer st ++ Utf8.decode value) st))
      as (taken & H1 & H2).
    exists taken. split; [exact H1 | exact H2].
Qed.

(* ================================================================= *)
(** ** cleanSerialOutput removes and never adds *)

(** [l1] is [l2] with some of its elements taken out. *)
Inductive subseq : jsstring -> jsstring -> Prop :=
| subseq_nil : subseq [] []
| subseq_drop : forall x l1 l2, subseq l1 l2 -> subseq l1 (x :: l2)
| subseq_keep : forall x l1 l2, subseq l1 l2 -> subseq (x :: l1) (x :: l2).

Lemma subseq_refl (l : jsstring) : subseq l l.
Proof. induction l; constructor; assumption. Qed.

Lemma subseq_nil_l (l : jsstring) : subseq [] l.
Proof. induction l; constructor; assumption. Qed.

Lemma subseq_trans (a b c : jsstring) :
  subseq a b -> subseq b c -> subseq a c.
Proof.
  intros Hab Hbc. revert a Hab.
  induction Hbc as [|x b c Hbc IH|x b c Hbc IH]; intros a Hab.
  - exact Hab.
  - constructor. now apply IH.
  - inversion Hab; subst.
    + apply subseq_drop. now apply IH.
    + apply subseq_keep. now apply IH.
Qed.

Lemma subseq_length (a b : jsstring) :
  subseq a b -> (List.length a <= List.length b)%nat.
Proof. induction 1; cbn [List.length]; lia. Qed.

Lemma replace_from_subseq (r : regex) (s : jsstring) :
  forall skip, subseq (replace_from r [] skip s) s.
Proof.
  induction s as [|x s IH]; intros skip; cbn [replace_from].
  - destruct skip; [destruct (match_at r [])|]; constructor.
  - destruct skip as [|n].
    + destruct (match_at r (x :: s)) as [[|n]|]; cbn [app].
      * apply subseq_keep, IH.
      * apply subseq_drop, IH.
      * apply subseq_keep, IH.
    + apply subseq_drop, IH.
Qed.

Lemma cleanSerialOutput_as_removals (text : jsstring) :
  cleanSerialOutput text
  = strip_control (strip_osc_either (strip_osc_backslash
      (strip_osc_bel (strip_csi text)))).
Proof.
  unfold cleanSerialOutput.
  set (s := strip_control _).
  assert (Hs : no_control s) by apply strip_control_no_control.
  assert (Hcr : ~ In 0x0D s)
    by (apply no_control_not_in; [assumption | reflexivity]).
  unfold crlf_to_lf, drop_cr, re_crlf, re_cr. cbn [chars].
  rewrite (replace_all_first_char_absent 0x0D _ _ s) by assumption.
  now apply replace_all_char_absent.
Qed.

(** X4: cleaning only removes characters: the cleaned string is the input
    with some characters taken out, in the same order, and is never longer. *)
Theorem cleanSerialOutput_only_removes (text : jsstring) :
  subseq (cleanSerialOutput text) text /\
  (List.length (cleanSerialOutput text) <= List.length text)%nat.
Proof.
  assert (H : subseq (cleanSerialOutput text) text).
  { rewrite cleanSerialOutput_as_removals.
    unfold strip_control, strip_osc_either, strip_osc_backslash,
      strip_osc_bel, strip_csi, replace_all.
    repeat (eapply subseq_trans; [apply replace_from_subseq|]).
    apply subseq_refl. }
  split; [exact H | now apply subseq_length].
Qed.

(** X5: a string of printable characters (0x20-0x7E, 0xA0 and above, and
    the line feed) is left as it is, brackets and backslashes included. *)
Theorem printable_text_unchanged (s : jsstring) :
  Forall (fun c => 0x20 <= c <= 0x7E \/ 0xA0 <= c \/ c = 0x0A) s ->
  cleanSerialOutput s = s.
Proof.
  intros H. apply cleanSerialOutput_fixed.
  unfold no_control. rewrite Forall_forall in *. intros c Hc.
  specialize (H c Hc). unfold control, range.
  repeat (apply orb_false_iff; split); apply andb_false_iff;
    rewrite !Z.leb_gt; lia.
Qed.

Lemma printable_text_unchanged_witness :
  cleanSerialOutput (lit "Hello [world] \ ]0;") = lit "Hello [world] \ ]0;".
Proof.
  apply (printable_text_unchanged (lit "Hello [world] \ ]0;")).
  vm_compute.
  repeat (apply Forall_cons; [left; split; discriminate|]). apply Forall_nil.
Defined.

(* ================================================================= *)
(** ** arrayBufferToBinaryString keeps the bytes *)

Lemma arrayBufferToBinaryString_map (bytes : list byte) :
  arrayBufferToBinaryString bytes = map byte_val bytes.
Proof.
  unfold arrayBufferToBinaryString.
  now rewrite binary_string_loop_spec by reflexivity.
Qed.

Lemma byte_val_inj (a b : byte) : byte_val a = byte_val b -> a = b.
Proof.
  unfold byte_val. intros H. apply N2Z.inj in H.
  pose proof (Byte.of_to_N a) as Ha. rewrite H, Byte.of_to_N in Ha.
  congruence.
Qed.

(** X6: the binary string of two buffers put end to end is the two binary
    strings put end to end. *)
Theorem arrayBufferToBinaryString_app (a b : list byte) :
  arrayBufferToBinaryString (a ++ b)
  = arrayBufferToBinaryString a ++ arrayBufferToBinaryString b.
Proof. rewrite !arrayBufferToBinaryString_map. apply map_app. Qed.

(** X7: two buffers with the same binary string are the same buffer: the
    conversion loses nothing of the firmware. *)
Theorem arrayBufferToBinaryString_injective (a b : list byte) :
  arrayBufferToBinaryString a = arrayBufferToBinaryString b -> a = b.
Proof.
  rewrite !arrayBufferToBinaryString_map. revert b.
  induction a as [|x a IH]; intros [|y b] H; try discriminate; [reflexivity|].
  cbn [map] in H. injection H as Hx Hab.
  f_equal; [now apply byte_val_inj | now apply IH].
Qed.

Lemma arrayBufferToBinaryString_injective_witness :
  [xe9; x00; xff] = [xe9; x00; xff].
Proof.
  apply (arrayBufferToBinaryString_injective [xe9; x00; xff] [xe9; x00; xff]).
  reflexivity.
Defined.

(* ================================================================= *)
(** ** The guards of clickProgram *)

(** X8: without a transport, without a firmware selected, or when the
    confirmation is refused, [clickProgram] returns, and the page is as it
    was but for one thing: the error appended to the log in the first two
    cases, the confirmation prompt recorded in the third. No call is made
    on the flasher client, the network or the port, and every variable and
    every control is left as it was. *)
Theorem clickProgram_guards (st : session) (w : program_world) :
  transport st = None \/ firmwareSelect_value st = [] \/ w_confirm w = false ->
  clickProgram w st
  = (Ret tt,
     match transport st with
     | None =>
         append_node (ErrorSpan (lit "Please connect to a serial port first."))
           st
     | Some _ =>
         if truthy (firmwareSelect_value st)
         then set_trace (trace st ++ [Confirm]) st
         else
           append_node (ErrorSpan (lit "Please select a firmware file first."))
             st
     end) /\
  same_variables st (exec (clickProgram w) st).
Proof.
  intros H.
  assert (E : clickProgram w st
    = (Ret tt,
       match transport st with
       | None =>
           append_node
             (ErrorSpan (lit "Please connect to a serial port first.")) st
       | Some _ =>
           if truthy (firmwareSelect_value st)
           then set_trace (trace st ++ [Confirm]) st
           else
             append_node
               (ErrorSpan (lit "Please select a firmware file first.")) st
       end)).
  { unfold clickProgram. rewrite bind_get.
    destruct (transport st) as [t|] eqn:Ht; [|reflexivity].
    rewrite bind_get.
    destruct (firmwareSelect_value st) as [|c sel] eqn:Hf; cbn [truthy negb];
      [reflexivity|].
    destruct H as [H|[H|H]]; try discriminate.
    rewrite bind_call_ok, H. reflexivity. }
  split; [exact E|]. unfold exec. rewrite E. cbn [snd].
  destruct (transport st); [destruct (truthy _)|]; repeat split.
Qed.

Lemma clickProgram_guards_witness :
  clickProgram good_program_world loaded
  = (Ret tt,
     append_node (ErrorSpan (lit "Please connect to a serial port first."))
       loaded).
Proof.
  apply (clickProgram_guards loaded good_program_world). left. reflexivity.
Defined.

(* ================================================================= *)
(** ** clickConnect *)

(** X9: with nothing connected, when the user grants a port, [clickConnect]
    keeps it as device, port and transport, puts the page in the Connected
    state and logs one line. *)
Theorem clickConnect_connects (st : session) (w : connect_world) (d : handle) :
  transport st = None ->
  port st = None ->
  isMonitoring st = false ->
  w_requestPort w = Ok d ->
  fst (clickConnect w st) = Ret tt /\
  device (exec (clickConnect w) st) = Some d /\
  port (exec (clickConnect w) st) = Some d /\
  transport (exec (clickConnect w) st) = Some d /\
  connected_state (exec (clickConnect w) st) /\
  log (exec (clickConnect w) st)
  = log st ++ [(next_node st, Line (lit "Connected to serial port."))] /\
  trace (exec (clickConnect w) st) = trace st ++ [RequestPort].
Proof.
  intros Ht Hp Hm Hr.
  assert (E : clickConnect w st
              = (Ret tt,
                 append_node (Line (lit "Connected to serial port."))
                   (set_butTerminal_disabled false
                      (set_butProgram_disabled false
                         (set_butConnect_text (lit "Disconnect")
                            (set_transport (Some d)
                               (set_port (Some d)
                                  (set_device (Some d)
                                     (set_trace (trace st ++ [RequestPort])
                                                st))))))))).
  { unfold clickConnect. rewrite bind_get, Ht. rewrite bind_get, Hp.
    cbn [is_some orb]. apply try_catch_ret.
    rewrite Hr, bind_call_ok. rewrite !bind_modify.
    unfold toggleUI. rewrite bind_modify.
    now rewrite logLine_plain by (vm_compute; reflexivity). }
  unfold exec. rewrite E. cbn [fst snd].
  repeat split; try assumption. discriminate.
Qed.

Definition grant_port : connect_world :=
  {| w_requestPort := Ok 1%nat; w_connect_teardown := quiet_teardown |}.

Lemma clickConnect_connects_witness :
  connected_state (exec (clickConnect grant_port) loaded).
Proof.
  apply (clickConnect_connects loaded grant_port 1%nat); reflexivity.
Defined.

(** X10: with nothing connected, when the request for a port fails,
    [clickConnect] returns without throwing, logs the failure with its
    message, holds no port and leaves the controls as for a page that is
    not connected. *)
Theorem clickConnect_refused (st : session) (w : connect_world) (e : exn) :
  transport st = None ->
  port st = None ->
  w_requestPort w = Err e ->
  fst (clickConnect w st) = Ret tt /\
  port (exec (clickConnect w) st) = None /\
  transport (exec (clickConnect w) st) = None /\
  device (exec (clickConnect w) st) = device st /\
  butConnect_text (exec (clickConnect w) st) = lit "Connect" /\
  butProgram_disabled (exec (clickConnect w) st) = true /\
  butTerminal_disabled (exec (clickConnect w) st) = true /\
  log (exec (clickConnect w) st)
  = log st ++ [(next_node st,
                ErrorSpan (lit "Failed to connect: " ++ message e))].
Proof.
  intros Ht Hp Hr.
  assert (E : clickConnect w st
              = (Ret tt,
                 set_butTerminal_disabled true
                   (set_butProgram_disabled true
                      (set_butConnect_text (lit "Connect")
                         (append_node
                            (ErrorSpan (lit "Failed to connect: " ++ message e))
                            (set_trace (trace st ++ [RequestPort]) st)))))).
  { unfold clickConnect. rewrite bind_get, Ht. rewrite bind_get, Hp.
    cbn [is_some orb].
    rewrite (try_catch_throw _ _ e st
               (set_trace (trace st ++ [RequestPort]) st)).
    - unfold logError, toggleUI. rewrite bind_modify. reflexivity.
    - now rewrite Hr, bind_call_err. }
  unfold exec. rewrite E. cbn [fst snd].
  repeat split; assumption.
Qed.

Definition refuse_port : connect_world :=
  {| w_requestPort := Err (Error (lit "No port selected by the user."));
     w_connect_teardown := quiet_teardown |}.

Lemma clickConnect_refused_witness :
  port (exec (clickConnect refuse_port) loaded) = None.
Proof.
  apply (clickConnect_refused loaded refuse_port
           (Error (lit "No port selected by the user."))); reflexivity.
Defined.

(** X11: with a transport or a port held and no monitoring, when the
    release calls return, [clickConnect] disconnects: it asks for no port,
    calls [transport.disconnect()] if a transport is set and [port.close()]
    if the port is readable, clears device, port and transport, and leaves
    the page in the Disconnected state. *)
Theorem clickConnect_disconnects (st : session) (w : connect_world) :
  is_some (transport st) || is_some (port st) = true ->
  isMonitoring st = false ->
  w_disconnect (w_connect_teardown w) = Ok tt ->
  is_some (port st) && w_readable (w_connect_teardown w) = false \/
  w_close (w_connect_teardown w) = Ok tt ->
  fst (clickConnect w st) = Ret tt /\
  transport (exec (clickConnect w) st) = None /\
  port (exec (clickConnect w) st) = None /\
  device (exec (clickConnect w) st) = None /\
  butConnect_text (exec (clickConnect w) st) = lit "Connect" /\
  butProgram_disabled (exec (clickConnect w) st) = true /\
  butTerminal_disabled (exec (clickConnect w) st) = true /\
  log (exec (clickConnect w) st)
  = log st ++ [(next_node st, Line (lit "Disconnected from serial port."))] /\
  trace (exec (clickConnect w) st)
  = trace st
    ++ (if is_some (transport st) then [TransportDisconnect] else [])
    ++ (if is_some (port st) && w_readable (w_connect_teardown w)
        then [PortClose] else []).
Proof.
  destruct st as [dev tr ld po rd mon buf pl lg nn ct pd tdis tt' tc fv trc].
  destruct w as [rp [cn dc rb cl]].
  cbn [transport port isMonitoring w_connect_teardown w_disconnect w_readable
       w_close log next_node trace].
  intros Hany -> -> Hclose.
  unfold exec, clickConnect. rewrite !bind_get.
  cbn [transport port isMonitoring w_connect_teardown]. rewrite Hany.
  unfold bind, get, modify, when, call, toggleUI.
  destruct tr as [t|]; destruct po as [p|]; destruct rb;
    cbn [is_some andb orb] in *; try discriminate;
    try (destruct Hclose as [Hclose|Hclose]; [discriminate|]; subst cl);
    cbn -[lit logLine app];
    rewrite logLine_plain by (vm_compute; reflexivity);
    cbn -[lit app]; rewrite ?app_nil_r, <- ?app_assoc;
    repeat split; reflexivity.
Qed.

(** Connecting and then clicking again gives back a page with no port. *)
Lemma clickConnect_disconnects_witness :
  port (exec (clickConnect grant_port) (exec (clickConnect grant_port) loaded))
  = None /\
  trace (exec (clickConnect grant_port) (exec (clickConnect grant_port) loaded))
  = [RequestPort; TransportDisconnect; PortClose].
Proof.
  pose proof (clickConnect_disconnects (exec (clickConnect grant_port) loaded)
                grant_port eq_refl eq_refl eq_refl (or_intror eq_refl))
    as (_ & _ & H1 & _ & _ & _ & _ & _ & H2).
  split; [exact H1 | exact H2].
Defined.

(* ================================================================= *)
(** ** The ends of a monitoring session *)

(** X12: when a read fails with any other error while the terminal is
    monitoring, the outer [catch] clause logs [Terminal failed:] with the
    message and the [finally] block calls [stopMonitoring]; the failed read
    has left the stream errored, so [reader.cancel()] rejects there and its
    error leaves [clickTerminal]. The failure is the last entry of the log
    ([Terminal stopped.] is not logged), the monitoring flag is cleared and
    the terminal control reads Terminal again, the reader is still set, the
    port and the device are not cleared, the controls are not toggled, and
    the port is not closed. *)
Theorem read_error_leaves_handler (st : session) (w : terminal_world)
  (chunks : list (list byte)) (e : exn) (later : list read_result)
  (e' : exn) :
  isMonitoring st = false ->
  is_some (port st) = true ->
  w_open w = Ok tt ->
  w_getReader w = Ok tt ->
  w_reads w = map Chunk chunks ++ ReadFails e :: later ->
  includes (lit "device has been lost") (message e) = false ->
  w_cancel (w_terminal_teardown w) = Err e' ->
  let st' := exec (clickTerminal w) st in
  fst (clickTerminal w st) = Throw e' /\
  (exists older n,
     log st' = older ++ [(n, ErrorSpan (lit "Terminal failed: " ++ message e))]) /\
  isMonitoring st' = false /\
  butTerminal_text st' = lit "Terminal" /\
  reader st' = true /\
  port st' = port st /\ device st' = device st /\
  transport st' = transport st /\
  butConnect_text st' = butConnect_text st /\
  butProgram_disabled st' = butProgram_disabled st /\
  butTerminal_disabled st' = butTerminal_disabled st /\
  trace st'
  = trace st ++ [Sleep 2000; PortOpen TERM_BAUD_RATE; GetReader]
    ++ repeat ReaderRead (List.length chunks) ++ [ReaderRead; ReaderCancel].
Proof.
  intros Hm Hp Ho Hg Hr He Hc st'.
  destruct (read_failure_run st w chunks e later e' Hm Hp Ho Hg Hr Hc)
    as (s1 & [T C] & Erun).
  subst st'. unfold exec. rewrite Erun. cbn [fst snd].
  unfold read_failure_entry. rewrite He.
  unfold same_controls in C.
  destruct C as (C1 & C2 & C3 & C4 & C5 & C6 & C7 & C8 & C9 & C10 & C11).
  unfold teardown_cut_short.
  cbn [log isMonitoring butTerminal_text reader port device transport
       butConnect_text butProgram_disabled butTerminal_disabled trace
       set_trace set_butTerminal_color set_butTerminal_text set_isMonitoring
       append_node set_next_node set_log].
  cbn [monitoring_started device transport port reader butConnect_text
       butProgram_disabled butTerminal_disabled trace set_reader set_trace
       set_buffer set_log set_next_node set_butTerminal_color
       set_butTerminal_text set_isMonitoring] in C1, C2, C3, C4, C6, C7, C8, T.
  split; [reflexivity|]. split; [now exists (log s1), (next_node s1)|].
  split; [reflexivity|]. split; [reflexivity|].
  split; [exact C4|]. split; [exact C3|]. split; [exact C1|].
  split; [exact C2|]. split; [exact C6|]. split; [exact C7|].
  split; [exact C8|].
  rewrite T. now rewrite <- !app_assoc.
Qed.

Definition framing_error : exn := Error (lit "Framing error").

Definition broken_world : terminal_world :=
  {| w_open := Ok tt; w_getReader := Ok tt;
     w_reads := [Chunk (list_byte_of_string "ab"); ReadFails framing_error];
     w_terminal_teardown := errored_teardown framing_error |}.

Lemma read_error_leaves_handler_witness :
  fst (clickTerminal broken_world connected_session) = Throw framing_error /\
  (exists older n,
     log (exec (clickTerminal broken_world) connected_session)
     = older ++ [(n, ErrorSpan (lit "Terminal failed: Framing error"))]) /\
  port (exec (clickTerminal broken_world) connected_session)
  = port connected_session.
Proof.
  pose proof (read_error_leaves_handler connected_session broken_world
                [list_byte_of_string "ab"] framing_error [] framing_error
                eq_refl eq_refl eq_refl eq_refl eq_refl eq_refl eq_refl)
    as H.
  cbv zeta in H.
  destruct H as (H1 & H2 & _ & _ & _ & H4 & _).
  split; [exact H1|]. split; [exact H2 | exact H4].
Defined.






(** The condition under which [logLine] writes on the progress node. *)
Definition is_progress (text : jsstring) : bool :=
  startsWith (lit "Programming: ") text || startsWith (lit "Writing at") text.

(** X14: at the end of the stream, text left in the buffer without a line
    feed is cleaned and logged as a last line before the notice, when its
    cleaned form is not empty (and is no progress line); the buffer is then
    empty. *)
Theorem stream_end_flushes_buffer (st : session) :
  truthy (cleanSerialOutput (buffer st)) = true ->
  is_progress (cleanSerialOutput (buffer st)) = false ->
  fst (read_turn Done st) = Ret Break /\
  buffer (exec (read_turn Done) st) = [] /\
  log (exec (read_turn Done) st)
  = log st ++ [(next_node st, Line (cleanSerialOutput (buffer st)));
               (S (next_node st), Line (lit "Serial stream ended."))].
Proof.
  intros Hc Hp.
  assert (Hb : truthy (buffer st) = true).
  { destruct (buffer st); [discriminate Hc | reflexivity]. }
  assert (E : read_turn Done st
              = (Ret Break,
                 append_node (Line (lit "Serial stream ended."))
                   (set_buffer []
                      (append_node (Line (cleanSerialOutput (buffer st)))
                         (set_trace (trace st ++ [ReaderRead]) st))))).
  { unfold read_turn. apply try_catch_ret. rewrite bind_call_ok.
    rewrite bind_get. cbn [buffer set_trace]. rewrite Hb. cbn [when].
    cbv zeta. rewrite Hc. cbn [when].
    unfold bind at 1. unfold bind at 1.
    rewrite logLine_plain by exact Hp.
    unfold modify at 1.
    now rewrite bind_logLine_plain by (vm_compute; reflexivity). }
  unfold exec. rewrite E. cbn [fst snd].
  split; [reflexivity|]. split; [reflexivity|].
  cbn [log append_node set_log set_next_node set_buffer set_trace next_node].
  now rewrite <- app_assoc.
Qed.

Lemma stream_end_flushes_buffer_witness :
  log (exec (read_turn Done) (set_buffer (lit "login:") loaded))
  = log loaded ++ [(1%nat, Line (lit "login:"));
                   (2%nat, Line (lit "Serial stream ended."))].
Proof.
  apply (stream_end_flushes_buffer (set_buffer (lit "login:") loaded));
    reflexivity.
Defined.

(** X15: when the port cannot be opened, [clickTerminal] returns without
    throwing, and the page is as it was but for the two entries appended to
    the log, the reset notice and the failure, and the two calls recorded,
    the wait and [port.open]: no monitoring is started, no reader acquired,
    and every variable and every control is left as it was, so that a page
    in the Connected state stays in it. *)
Theorem open_failure_keeps_connection (st : session) (w : terminal_world)
  (e : exn) :
  isMonitoring st = false ->
  is_some (port st) = true ->
  w_open w = Err e ->
  clickTerminal w st
  = (Ret tt,
     append_node (ErrorSpan (lit "Terminal failed: " ++ message e))
       (set_trace (trace st ++ [Sleep 2000; PortOpen TERM_BAUD_RATE])
          (append_node
             (Line (lit "Reset your device now, waiting 2 seconds...")) st))) /\
  same_variables st (exec (clickTerminal w) st) /\
  (connected_state st -> connected_state (exec (clickTerminal w) st)) /\
  log (exec (clickTerminal w) st)
  = log st ++ [(next_node st,
                Line (lit "Reset your device now, waiting 2 seconds..."));
               (S (next_node st),
                ErrorSpan (lit "Terminal failed: " ++ message e))] /\
  trace (exec (clickTerminal w) st)
  = trace st ++ [Sleep 2000; PortOpen TERM_BAUD_RATE].
Proof.
  intros Hm Hp Ho.
  set (s1 := set_trace
               (trace st ++ [Sleep 2000; PortOpen TERM_BAUD_RATE])
               (append_node
                  (Line (lit "Reset your device now, waiting 2 seconds..."))
                  st)).
  assert (Etry : terminal_try w st = (Throw e, s1)).
  { unfold terminal_try. rewrite Ho.
    rewrite bind_logLine_plain by (vm_compute; reflexivity).
    rewrite bind_call_ok, bind_call_err. f_equal.
    apply session_ext; try reflexivity.
    cbn [trace set_trace append_node set_log set_next_node].
    now rewrite <- app_assoc. }
  assert (Erun : clickTerminal w st
                 = (Ret tt,
                    append_node
                      (ErrorSpan (lit "Terminal failed: " ++ message e)) s1)).
  { unfold clickTerminal. rewrite bind_get, Hm. rewrite bind_get, Hp.
    cbn [negb].
    apply (try_finally_ret _ _ tt st
             (append_node (ErrorSpan (lit "Terminal failed: " ++ message e)) s1)
             (append_node (ErrorSpan (lit "Terminal failed: " ++ message e)) s1)).
    - rewrite (try_catch_throw _ _ e st s1 Etry). reflexivity.
    - rewrite bind_get. cbn [isMonitoring append_node set_next_node set_log].
      change (isMonitoring s1) with (isMonitoring st). rewrite Hm.
      reflexivity. }
  unfold exec. rewrite Erun. cbn [fst snd].
  split; [reflexivity|]. split; [repeat split|]. split.
  - intros H. exact H.
  - split; [|reflexivity].
    cbn [log append_node set_log set_next_node next_node]. unfold s1.
    cbn [log next_node set_trace append_node set_log set_next_node].
    now rewrite <- app_assoc.
Qed.

Definition busy_world : terminal_world :=
  {| w_open := Err (Error (lit "Failed to open serial port."));
     w_getReader := Ok tt; w_reads := [];
     w_terminal_teardown := quiet_teardown |}.

Lemma open_failure_keeps_connection_witness :
  clickTerminal busy_world connected_session
  = (Ret tt,
     append_node (ErrorSpan (lit "Terminal failed: Failed to open serial port."))
       (set_trace (trace connected_session
                   ++ [Sleep 2000; PortOpen TERM_BAUD_RATE])
          (append_node
             (Line (lit "Reset your device now, waiting 2 seconds..."))
             connected_session))) /\
  connected_state (exec (clickTerminal busy_world) connected_session).
Proof.
  pose proof (open_failure_keeps_connection connected_session busy_world
                (Error (lit "Failed to open serial port."))
                eq_refl eq_refl eq_refl) as (H0 & _ & H & _).
  split; [exact H0|].
  apply H. repeat split; try reflexivity. discriminate.
Defined.

(* ================================================================= *)
(** ** The progress line of the log *)

(** The nodes of the log pane were made before the next node. *)
Definition fresh_nodes (st : session) : Prop :=
  Forall (fun ne => (fst ne < next_node st)%nat) (log st).

Lemma set_text_last (n : nat) (text : jsstring) (e : entry)
  (l : list (nat * entry)) :
  Forall (fun ne => (fst ne < n)%nat) l ->
  set_text n text (l ++ [(n, e)]) = l ++ [(n, Line text)].
Proof.
  intros H. unfold set_text. rewrite map_app. cbn [map fst].
  rewrite Nat.eqb_refl. f_equal.
  induction H as [|ne l Hne _ IH]; [reflexivity|].
  cbn [map]. rewrite IH.
  destruct (Nat.eqb_spec (fst ne) n); [lia | reflexivity].
Qed.

(** X16: two progress lines in a row, logged when no progress node is set,
    make one node in the log, which shows the second; an ordinary line
    makes a node of its own. *)
Theorem progress_lines_share_a_node (st : session) (p1 p2 : jsstring) :
  is_progress p1 = true ->
  is_progress p2 = true ->
  progressLine st = None ->
  fresh_nodes st ->
  log (exec (logLine p1;; logLine p2) st) = log st ++ [(next_node st, Line p2)] /\
  progressLine (exec (logLine p1;; logLine p2) st) = Some (next_node st) /\
  next_node (exec (logLine p1;; logLine p2) st) = S (next_node st).
Proof.
  intros H1 H2 Hpl Hfresh. unfold is_progress in H1, H2.
  assert (E1 : logLine p1 st
               = (Ret tt,
                  set_log (log st ++ [(next_node st, Line p1)])
                    (set_progressLine (Some (next_node st))
                       (append_node (Line []) st)))).
  { unfold logLine. rewrite H1, Hpl.
    cbn [progressLine set_progressLine log append_node set_log set_next_node].
    now rewrite set_text_last. }
  assert (E2 : forall s n l,
             progressLine s = Some n -> log s = l ++ [(n, Line p1)] ->
             Forall (fun ne => (fst ne < n)%nat) l ->
             logLine p2 s = (Ret tt, set_log (l ++ [(n, Line p2)]) s)).
  { intros s n l Hs Hl Hf. unfold logLine. rewrite H2, Hs. rewrite Hs, Hl.
    now rewrite set_text_last. }
  unfold exec. rewrite (bind_ret_eq _ _ tt _ _ E1).
  rewrite (E2 _ (next_node st) (log st)); try reflexivity; [|exact Hfresh].
  cbn [snd]. repeat split.
Qed.

Lemma progress_lines_share_a_node_witness :
  log (exec (logLine (lit "Writing at 0x1000... (10 %)");;
             logLine (lit "Writing at 0x2000... (20 %)")) loaded)
  = log loaded ++ [(1%nat, Line (lit "Writing at 0x2000... (20 %)"))].
Proof.
  apply (progress_lines_share_a_node loaded
           (lit "Writing at 0x1000... (10 %)")
           (lit "Writing at 0x2000... (20 %)")); try reflexivity.
  repeat constructor.
Defined.

(** X17: when the progress node is set but is no longer in the log pane
    (the pane was cleared since), a progress line changes nothing that is
    shown. *)
Theorem progress_line_on_cleared_pane (st : session) (p : jsstring) (n : nat) :
  is_progress p = true ->
  progressLine st = Some n ->
  Forall (fun ne => fst ne <> n) (log st) ->
  logLine p st = (Ret tt, st).
Proof.
  intros Hp Hpl Hout. unfold is_progress in Hp. unfold logLine.
  rewrite Hp, Hpl. rewrite Hpl. f_equal.
  assert (E : set_text n p (log st) = log st).
  { unfold set_text. induction Hout as [|ne l Hne _ IH]; [reflexivity|].
    cbn [map]. rewrite IH.
    destruct (Nat.eqb_spec (fst ne) n); [contradiction | reflexivity]. }
  rewrite E. now destruct st.
Qed.

Lemma progress_line_on_cleared_pane_witness :
  logLine (lit "Writing at 0x1000... (10 %)")
          (set_log [] (set_progressLine (Some 0%nat) loaded))
  = (Ret tt, set_log [] (set_progressLine (Some 0%nat) loaded)).
Proof.
  apply (progress_line_on_cleared_pane
           (set_log [] (set_progressLine (Some 0%nat) loaded))
           (lit "Writing at 0x1000... (10 %)") 0%nat); try reflexivity.
  constructor.
Defined.

(* ================================================================= *)
(** ** stopMonitoring *)

(** A run that leaves a part of the session as it is. *)
Definition keeps {A X} (f : session -> X) (m : M A) : Prop :=
  forall st, f (exec m st) = f st.

Lemma keeps_bind {A B X} (f : session -> X) (m : M A) (k : A -> M B) :
  keeps f m -> (forall a, keeps f (k a)) -> keeps f (x <- m;; k x).
Proof.
  intros Hm Hk st. unfold exec, bind. specialize (Hm st). unfold exec in Hm.
  destruct (m st) as [[a|e|] st']; cbn [snd] in *; try exact Hm.
  rewrite <- Hm. apply Hk.
Qed.

Lemma keeps_ret {A X} (f : session -> X) (a : A) : keeps f (ret a).
Proof. intros st. reflexivity. Qed.

Lemma keeps_get {A X} (f : session -> X) (g : session -> A) : keeps f (get g).
Proof. intros st. reflexivity. Qed.

Lemma keeps_modify {X} (f : session -> X) (g : session -> session) :
  (forall st, f (g st) = f st) -> keeps f (modify g).
Proof. intros H st. apply H. Qed.

Lemma keeps_when {X} (f : session -> X) (b : bool) (m : M unit) :
  keeps f m -> keeps f (when b m).
Proof. intros H. destruct b; [exact H | apply keeps_ret]. Qed.

Lemma keeps_call {A X} (f : session -> X) (ev : event) (r : result A) :
  (forall st tr, f (set_trace tr st) = f st) -> keeps f (call ev r).
Proof. intros H st. unfold exec, call. destruct r; apply H. Qed.

(** The parts [stopMonitoring] sets first. *)
Definition terminal_control (st : session) : bool * jsstring * jsstring :=
  (isMonitoring st, butTerminal_text st, butTerminal_color st).

Lemma keeps_logLine (text : jsstring) : keeps terminal_control (logLine text).
Proof.
  intros st. unfold exec.
  destruct (logLine_shape text st) as (lg & nn & pl & ->). reflexivity.
Qed.

(** X18: whatever the release calls do, and whether a reader is set or not,
    [stopMonitoring] clears the monitoring flag and gives the terminal
    control its label and colour back; it never leaves the page
    monitoring. *)
Theorem stopMonitoring_clears_flag (td : teardown_world) (s : session) :
  isMonitoring (exec (stopMonitoring td) s) = false /\
  butTerminal_text (exec (stopMonitoring td) s) = lit "Terminal" /\
  butTerminal_color (exec (stopMonitoring td) s) = [].
Proof.
  assert (H : terminal_control (exec (stopMonitoring td) s)
              = (false, lit "Terminal", [])).
  { unfold stopMonitoring, exec. rewrite !bind_modify.
    match goal with
    | |- terminal_control (snd (?m ?s0)) = _ =>
        change (terminal_control (exec m s0) = terminal_control s0)
    end.
    apply keeps_bind; [apply keeps_get | intros r].
    apply keeps_bind.
    { apply keeps_when. apply keeps_bind; [now apply keeps_call | intros _].
      apply keeps_bind; [now apply keeps_call | intros _].
      now apply keeps_modify. }
    intros _. apply keeps_bind; [apply keeps_get | intros p].
    apply keeps_bind; [apply keeps_when; now apply keeps_call | intros _].
    apply keeps_bind; [now apply keeps_modify | intros _].
    apply keeps_bind; [now apply keeps_modify | intros _].
    apply keeps_bind; [unfold toggleUI; now apply keeps_modify | intros _].
    apply keeps_logLine. }
  unfold terminal_control in H. now injection H as -> -> ->.
Qed.

(* ================================================================= *)
(** ** The terminal after a programming run *)

Lemma program_finally_keeps {X} (f : session -> X) (t : teardown_world) :
  (forall v st, f (set_butProgram_disabled v st) = f st) ->
  (forall v st, f (set_trace v st) = f st) ->
  (forall v st, f (set_transport v st) = f st) ->
  (forall v st, f (set_port v st) = f st) ->
  (forall v st, f (set_esploader v st) = f st) ->
  keeps f (program_finally t).
Proof.
  intros H1 H2 H3 H4 H5. unfold program_finally.
  apply keeps_bind; [now apply keeps_modify | intros _].
  apply keeps_bind; [apply keeps_get | intros tr].
  apply keeps_bind.
  { apply keeps_when. apply keeps_bind; [now apply keeps_call | intros _].
    now apply keeps_modify. }
  intros _. apply keeps_bind; [apply keeps_get | intros p].
  apply keeps_bind.
  { apply keeps_when. apply keeps_bind; [now apply keeps_call | intros _].
    now apply keeps_modify. }
  intros _. now apply keeps_modify.
Qed.

(** After a run of [clickProgram] that gets past its guards and whose
    [transport.disconnect()] returns: the monitoring flag and the terminal
    control are as before; the port variable is as before unless the port
    was found readable and closed. *)
Lemma clickProgram_port (st : session) (w : program_world) (t : handle) :
  transport st = Some t ->
  truthy (firmwareSelect_value st) = true ->
  w_confirm w = true ->
  w_disconnect (w_program_teardown w) = Ok tt ->
  isMonitoring (exec (clickProgram w) st) = isMonitoring st /\
  butTerminal_disabled (exec (clickProgram w) st) = butTerminal_disabled st /\
  (is_some (port st) && w_readable (w_program_teardown w) = false ->
   port (exec (clickProgram w) st) = port st) /\
  (is_some (port st) && w_readable (w_program_teardown w) = true ->
   w_close (w_program_teardown w) = Ok tt ->
   port (exec (clickProgram w) st) = None).
Proof.
  intros Ht Hf Hc Hd.
  destruct (clickProgram_run st w t Ht Hf Hc)
    as (k & buf & s1 & [T C] & E & _).
  assert (Hs1 : transport s1 = Some t /\ port s1 = port st /\
                isMonitoring s1 = isMonitoring st /\
                butTerminal_disabled s1 = butTerminal_disabled st).
  { unfold same_controls in C.
    repeat match goal with H : _ /\ _ |- _ => destruct H end.
    cbn in *. repeat split; congruence. }
  destruct Hs1 as (Hs1 & Hp1 & Hm1 & Hb1).
  pose proof (program_finally_keeps isMonitoring (w_program_teardown w)
                ltac:(reflexivity) ltac:(reflexivity) ltac:(reflexivity)
                ltac:(reflexivity) ltac:(reflexivity) s1) as Hk1.
  pose proof (program_finally_keeps butTerminal_disabled (w_program_teardown w)
                ltac:(reflexivity) ltac:(reflexivity) ltac:(reflexivity)
                ltac:(reflexivity) ltac:(reflexivity) s1) as Hk2.
  destruct (program_finally_run (w_program_teardown w) s1 t Hs1)
    as (o & s' & tail & Ef & Tf & Hdis & Hcase).
  assert (Hexec : exec (clickProgram w) st = s').
  { unfold exec. rewrite E. unfold try_finally, ret. rewrite Ef.
    now destruct o. }
  rewrite Hexec. unfold exec in Hk1, Hk2. rewrite Ef in Hk1, Hk2.
  cbn [snd] in Hk1, Hk2.
  rewrite Hd, Hp1 in Hcase. destruct Hcase as [_ Hcase].
  split; [congruence|]. split; [congruence|]. split.
  - intros Hclosed. rewrite Hclosed in Hcase.
    destruct Hcase as (_ & _ & Hport & _). congruence.
  - intros Hopen Hclose. rewrite Hopen, Hclose in Hcase.
    destruct Hcase as (_ & _ & Hport & _). exact Hport.
Qed.

Lemma try_catch_pending {A} (body : M A) (h : exn -> M A) (st st' : session) :
  body st = (Pending, st') -> try_catch body h st = (Pending, st').
Proof. intros H. unfold try_catch. now rewrite H. Qed.

Lemma try_finally_pending {A} (body : M A) (final : M unit)
  (st st' : session) :
  body st = (Pending, st') -> try_finally body final st = (Pending, st').
Proof. intros H. unfold try_finally. now rewrite H. Qed.

(** [clickTerminal] on a page that holds a port and is not monitoring, when
    the port opens: the handler is in its reading loop. *)
Lemma clickTerminal_starts (st : session) (w : terminal_world) :
  isMonitoring st = false ->
  is_some (port st) = true ->
  w_open w = Ok tt ->
  w_getReader w = Ok tt ->
  w_reads w = [] ->
  clickTerminal w st
  = (Pending,
     set_trace (trace (monitoring_started st) ++ [ReaderRead])
       (monitoring_started st)).
Proof.
  intros Hm Hp Ho Hg Hr.
  unfold clickTerminal. rewrite bind_get, Hm. rewrite bind_get, Hp.
  cbn [negb]. apply try_finally_pending, try_catch_pending.
  rewrite (terminal_try_start w st Ho Hg), Hr.
  cbn [read_loop]. rewrite bind_get.
  change (isMonitoring (monitoring_started st)) with true.
  cbn [negb]. reflexivity.
Qed.

(** X19: after a programming run in which [transport.disconnect()] has
    left the port not readable, the port variable is still set, and
    [clickTerminal] opens the port at 115200 baud and starts monitoring. *)
Theorem terminal_after_program (st : session) (w : program_world)
  (t : handle) (w2 : terminal_world) :
  transport st = Some t ->
  truthy (firmwareSelect_value st) = true ->
  w_confirm w = true ->
  isMonitoring st = false ->
  is_some (port st) = true ->
  w_disconnect (w_program_teardown w) = Ok tt ->
  w_readable (w_program_teardown w) = false ->
  w_open w2 = Ok tt ->
  w_getReader w2 = Ok tt ->
  w_reads w2 = [] ->
  port (exec (clickProgram w) st) = port st /\
  fst (clickTerminal w2 (exec (clickProgram w) st)) = Pending /\
  isMonitoring (exec (clickTerminal w2) (exec (clickProgram w) st)) = true /\
  trace (exec (clickTerminal w2) (exec (clickProgram w) st))
  = trace (exec (clickProgram w) st)
    ++ [Sleep 2000; PortOpen 115200; GetReader; ReaderRead].
Proof.
  intros Ht Hf Hc Hm Hp Hd Hr Ho Hg Hreads.
  destruct (clickProgram_port st w t Ht Hf Hc Hd) as (Hm1 & _ & Hp1 & _).
  assert (Hport : port (exec (clickProgram w) st) = port st).
  { apply Hp1. rewrite Hr. apply andb_false_r. }
  split; [exact Hport|].
  unfold exec at 2 4.
  rewrite (clickTerminal_starts (exec (clickProgram w) st) w2);
    try assumption;
    [|now rewrite Hm1 | now rewrite Hport].
  cbn [fst snd]. split; [reflexivity|]. split; [reflexivity|].
  cbn [trace set_trace monitoring_started set_reader]. 
  now rewrite <- app_assoc.
Qed.

(** A world in which every step succeeds and the port is found closed
    after [transport.disconnect()]. *)
Definition closing_program_world : program_world :=
  {| w_confirm := true;
     w_main := {| output := []; settles := Ok tt |};
     w_erase := {| output := []; settles := Ok tt |};
     w_fetch := Ok {| ok := true; arrayBuffer := Ok [xe9; x00] |};
     w_write := {| output := []; settles := Ok tt |};
     w_eraseStart := 0; w_eraseEnd := 10;
     w_programStart := 20; w_programEnd := 30;
     w_program_teardown :=
       {| w_cancel := Ok tt; w_disconnect := Ok tt; w_readable := false;
          w_close := Ok tt |} |}.

Definition idle_terminal_world : terminal_world :=
  {| w_open := Ok tt; w_getReader := Ok tt; w_reads := [];
     w_terminal_teardown := quiet_teardown |}.

Lemma terminal_after_program_witness :
  isMonitoring (exec (clickTerminal idle_terminal_world)
                     (exec (clickProgram closing_program_world)
                           connected_session)) = true.
Proof.
  apply (terminal_after_program connected_session closing_program_world
           1%nat idle_terminal_world); reflexivity.
Defined.

(** X20: after a programming run in which the port was still readable and
    was closed by the handler, the port variable is cleared while the
    terminal control is as it was: [clickTerminal] then only logs that a
    port must be connected first, and makes no call. *)
Theorem terminal_refused_after_program (st : session) (w : program_world)
  (t : handle) (w2 : terminal_world) :
  transport st = Some t ->
  truthy (firmwareSelect_value st) = true ->
  w_confirm w = true ->
  isMonitoring st = false ->
  is_some (port st) = true ->
  w_disconnect (w_program_teardown w) = Ok tt ->
  w_readable (w_program_teardown w) = true ->
  w_close (w_program_teardown w) = Ok tt ->
  butTerminal_disabled (exec (clickProgram w) st) = butTerminal_disabled st /\
  clickTerminal w2 (exec (clickProgram w) st)
  = (Ret tt,
     append_node (ErrorSpan (lit "Please connect to a serial port first."))
       (exec (clickProgram w) st)).
Proof.
  intros Ht Hf Hc Hm Hp Hd Hr Hcl.
  destruct (clickProgram_port st w t Ht Hf Hc Hd) as (Hm1 & Hb1 & _ & Hp1).
  split; [exact Hb1|].
  assert (Hport : port (exec (clickProgram w) st) = None).
  { apply Hp1; [|exact Hcl]. now rewrite Hp, Hr. }
  unfold clickTerminal. rewrite bind_get, Hm1, Hm. rewrite bind_get, Hport.
  reflexivity.
Qed.

Lemma terminal_refused_after_program_witness :
  clickTerminal idle_terminal_world
    (exec (clickProgram good_program_world) connected_session)
  = (Ret tt,
     append_node (ErrorSpan (lit "Please connect to a serial port first."))
       (exec (clickProgram good_program_world) connected_session)).
Proof.
  apply (terminal_refused_after_program connected_session good_program_world
           1%nat idle_terminal_world); reflexivity.
Defined.

(* ================================================================= *)
(** ** The options of the firmware selector *)

(** [s.split(sep)] for a separator of one character. *)
Fixpoint split (sep : Z) (s : jsstring) : list jsstring :=
  match s with
  | [] => [[]]
  | x :: t =>
      if x =? sep then [] :: split sep t
      else match split sep t with
           | seg :: rest => (x :: seg) :: rest
           | [] => [[x]]
           end
  end.

(** [a.pop()]: the last element, [None] standing for [undefined]. *)
Fixpoint pop {A} (a : list A) : option A :=
  match a with
  | [] => None
  | [x] => Some x
  | _ :: a' => pop a'
  end.

(** The option made for a firmware by the [DOMContentLoaded] handler: its
    [value] and its [textContent]. *)
Definition firmware_option (firmware : jsstring) : jsstring * option jsstring :=
  (firmware, pop (split 0x2F firmware)).

(** [a.join(sep)]. *)
Fixpoint join (sep : Z) (a : list jsstring) : jsstring :=
  match a with
  | [] => []
  | [x] => x
  | x :: a' => x ++ sep :: join sep a'
  end.

Lemma split_not_empty (sep : Z) (s : jsstring) : split sep s <> [].
Proof.
  destruct s as [|x t]; cbn [split]; [discriminate|].
  destruct (x =? sep); [discriminate|].
  destruct (split sep t); discriminate.
Qed.

Lemma join_split (sep : Z) (s : jsstring) : join sep (split sep s) = s.
Proof.
  induction s as [|x t IH]; [reflexivity|]. cbn [split].
  pose proof (split_not_empty sep t) as Hne.
  destruct (Z.eqb_spec x sep) as [->|Hx].
  - destruct (split sep t) as [|seg rest]; [contradiction|].
    cbn [join app] in *. now rewrite IH.
  - destruct (split sep t) as [|seg rest]; [contradiction|].
    destruct rest; cbn [join app] in *; now rewrite IH.
Qed.

Lemma split_segments (sep : Z) (s : jsstring) :
  Forall (fun seg => ~ In sep seg) (split sep s).
Proof.
  induction s as [|x t IH]; cbn [split].
  - constructor; [intros [] | constructor].
  - destruct (Z.eqb_spec x sep) as [->|Hx].
    + constructor; [intros [] | exact IH].
    + destruct (split sep t) as [|seg rest].
      * constructor; [|constructor]. intros [H|[]]. congruence.
      * inversion IH; subst. constructor; [|assumption].
        intros [H|H]; [congruence | contradiction].
Qed.

Lemma join_pop (sep : Z) (a : list jsstring) :
  a <> [] ->
  exists name dir,
    pop a = Some name /\ In name a /\ join sep a = dir ++ name /\
    (dir = [] \/ exists d, dir = d ++ [sep]).
Proof.
  induction a as [|x a IH]; intros Hne; [contradiction|].
  destruct a as [|y a].
  - exists x, []. cbn. auto.
  - destruct (IH ltac:(discriminate)) as (name & dir & Hp & Hin & Hj & Hd).
    exists name, (x ++ sep :: dir). split; [exact Hp|]. split; [now right|].
    split.
    + cbn [join] in *. rewrite Hj. now rewrite <- app_assoc.
    + right. destruct Hd as [->|(d & ->)].
      * exists x. reflexivity.
      * exists (x ++ sep :: d). now rewrite <- app_assoc.
Qed.

(** X21: the text of the option made for a firmware is the part of its path
    after the last slash: the path is a directory part, empty or ended by a
    slash, followed by the text, and the text holds no slash. *)
Theorem firmware_option_text (firmware : jsstring) :
  fst (firmware_option firmware) = firmware /\
  exists name dir,
    snd (firmware_option firmware) = Some name /\
    firmware = dir ++ name /\
    ~ In 0x2F name /\
    (dir = [] \/ exists d, dir = d ++ [0x2F]).
Proof.
  split; [reflexivity|]. unfold firmware_option. cbn [snd].
  destruct (join_pop 0x2F (split 0x2F firmware) (split_not_empty _ _))
    as (name & dir & Hp & Hin & Hj & Hd).
  exists name, dir. split; [exact Hp|]. split.
  - now rewrite <- Hj, join_split.
  - split; [|exact Hd].
    pose proof (split_segments 0x2F firmware) as H.
    rewrite Forall_forall in H. now apply H.
Qed.

(* ================================================================= *)
(** ** What clickProgram reports *)

(** The first step of the programming sequence that fails, with its error:
    the entry, the erase, the fetch (an error, or a response that is not
    ok), the reading of the body, the write. *)
Definition first_failure (w : program_world) : option exn :=
  match settles (w_main w) with
  | Err e => Some e
  | Ok _ =>
    match settles (w_erase w) with
    | Err e => Some e
    | Ok _ =>
      match w_fetch w with
      | Err e => Some e
      | Ok r =>
        if ok r then
          match arrayBuffer r with
          | Err e => Some e
          | Ok _ =>
            match settles (w_write w) with
            | Err e => Some e
            | Ok _ => None
            end
          end
        else Some (Error (lit "Failed to fetch firmware"))
      end
    end
  end.

Definition success_line : entry :=
  Line (lit "Firmware installed successfully. Click Terminal and reset your device.").

(** The last node of the log pane. *)
Definition last_entry (st : session) : option entry :=
  option_map snd (pop (log st)).

Lemma pop_app_one {A} (l : list A) (x : A) : pop (l ++ [x]) = Some x.
Proof.
  induction l as [|y l IH]; [reflexivity|]. cbn [app pop].
  destruct (l ++ [x]) eqn:E; [now destruct l|]. exact IH.
Qed.

Lemma last_entry_append (e : entry) (st : session) :
  last_entry (append_node e st) = Some e.
Proof.
  unfold last_entry, append_node. cbn [log set_log set_next_node].
  now rewrite pop_app_one.
Qed.

Lemma program_try_outcome (w : program_world) (t : handle) (url : jsstring)
  (st : session) :
  exists s,
    try_catch (program_try w t url) (fun e => logError (message e)) st
    = (Ret tt, s) /\
    last_entry s = Some match first_failure w with
                        | Some e => ErrorSpan (message e)
                        | None => success_line
                        end.
Proof.
  pose proof (extends_refl st) as X.
  unfold try_catch, program_try, first_failure.
  step. cbn [settled].
  unfold bind at 1, modify at 1.
  match goal with
  | |- context [set_esploader ?ld ?s] =>
      pose proof (extends_esploader ld s) as Y; chain;
      set (s' := set_esploader ld s) in *; clearbody s'
  end.
  step.
  destruct (settles (w_main w)) as [[]|e]; cbn [settled];
    [|eexists; split; [reflexivity | apply last_entry_append]].
  step. step.
  destruct (settles (w_erase w)) as [[]|e]; cbn [settled];
    [|eexists; split; [reflexivity | apply last_entry_append]].
  step. step. step.
  destruct (w_fetch w) as [r|e]; cbn [settled];
    [|eexists; split; [reflexivity | apply last_entry_append]].
  destruct (ok r); cbn [negb];
    [|unfold throw; eexists; split; [reflexivity | apply last_entry_append]].
  step.
  destruct (arrayBuffer r) as [buf|e]; cbn [settled];
    [|eexists; split; [reflexivity | apply last_entry_append]].
  cbv zeta. step. step.
  destruct (settles (w_write w)) as [[]|e]; cbn [settled];
    [|eexists; split; [reflexivity | apply last_entry_append]].
  step. rewrite logLine_plain by (vm_compute; reflexivity).
  eexists. split; [reflexivity | apply last_entry_append].
Qed.

(** X22: a run of [clickProgram] that gets past its guards ends with its
    report as last entry of the log: the message of the first step that
    failed, as an error, or the line that says the firmware is installed. *)
Theorem clickProgram_reports (st : session) (w : program_world) (t : handle) :
  transport st = Some t ->
  truthy (firmwareSelect_value st) = true ->
  w_confirm w = true ->
  last_entry (exec (clickProgram w) st)
  = Some match first_failure w with
         | Some e => ErrorSpan (message e)
         | None => success_line
         end.
Proof.
  intros Ht Hf Hc. unfold exec, clickProgram.
  rewrite bind_get, Ht. rewrite bind_get, Hf. cbn [negb].
  rewrite bind_call_ok, Hc. cbn [negb]. rewrite !bind_modify.
  match goal with
  | |- context [try_finally (try_catch _ _) _ ?s0] =>
      destruct (program_try_outcome w t (firmwareSelect_value st) s0)
        as (s & E & Hlast)
  end.
  unfold try_finally. rewrite E.
  pose proof (program_finally_keeps last_entry (w_program_teardown w)
                ltac:(reflexivity) ltac:(reflexivity) ltac:(reflexivity)
                ltac:(reflexivity) ltac:(reflexivity) s) as Hk.
  unfold exec in Hk.
  destruct (program_finally (w_program_teardown w) s) as [[[]|e|] s'];
    cbn [snd] in *; now rewrite Hk.
Qed.

Lemma clickProgram_reports_witness :
  last_entry (exec (clickProgram erase_fails_world) connected_session)
  = Some (ErrorSpan (lit "Timeout")) /\
  last_entry (exec (clickProgram good_program_world) connected_session)
  = Some success_line.
Proof.
  split.
  - apply (clickProgram_reports connected_session erase_fails_world 1%nat);
      reflexivity.
  - apply (clickProgram_reports connected_session good_program_world 1%nat);
      reflexivity.
Defined.
